(** * fingerfly: a modal line editor (src/main.cpp)

    A shallow embedding of the [Editor] class: the line buffer
    ([std::vector<std::string> content]), the cursor and scroll offsets
    ([int] fields), the single-line register [copy_buffer], the two modes,
    the key handlers, the scrolling part of [draw], the input loop [run] and
    the two file operations.

    Conventions.
    - [int] is 32 bits and [size_t] 64 bits (LP64).  Every [int] result is
      passed through [to_int] (two's complement wrap-around); a conversion of
      an [int] to [size_t], which C++ inserts in every mixed comparison and in
      every call taking a [size_type], is [to_size_t].
    - A [std::string] is its sequence of [char]s; a [std::vector] is a list.
    - An access the C++ standard leaves undefined (vector [operator[]], an
      iterator outside [begin, end]) yields [UB]; the [std::out_of_range]
      that [std::string::insert], [erase] and [substr] throw for a position
      past the end yields [OutOfRange].  Nothing in the program catches it.
    - Memory exhaustion and the painting primitives of ncurses ([clear],
      [mvprintw], [attron], [move], [refresh]) are outside the model, and so
      is what [mvprintw] makes of a line it is handed as its format string;
      of [draw] the model keeps the offset computation and the [substr]
      calls that can throw.
    - [getch] is a list of keys: the loop consumes them in order and is
      still waiting when they run out. *)

From Stdlib Require Import ZArith Ascii String List Lia.
From stdpp Require Import base option list strings gmap.
From Equations Require Import Equations.

Local Open Scope Z_scope.

(** ** Machine integers *)

Definition INT_MIN : Z := - 2 ^ 31.
Definition INT_MAX : Z := 2 ^ 31 - 1.

(** The value an [int] expression takes. *)
Definition to_int (z : Z) : Z := (z + 2 ^ 31) mod 2 ^ 32 - 2 ^ 31.

(** Conversion to [size_t]. *)
Definition to_size_t (z : Z) : Z := z mod 2 ^ 64.

(** [std::string::npos]. *)
Definition npos : Z := 2 ^ 64 - 1.

Definition is_int (z : Z) : Prop := INT_MIN <= z <= INT_MAX.

(** ** Outcomes *)

Inductive outcome (A : Type) : Type :=
| Ok (a : A)
| OutOfRange
| UB.
Arguments Ok {A} a.
Arguments OutOfRange {A}.
Arguments UB {A}.

#[global] Instance outcome_ret : MRet outcome := fun A a => Ok a.
#[global] Instance outcome_bind : MBind outcome := fun A B f m =>
  match m with
  | Ok a => f a
  | OutOfRange => OutOfRange
  | UB => UB
  end.

(** ** std::string *)

Abbreviation std_string := (list ascii).

(** A string literal. *)
Definition lit (s : string) : std_string := list_ascii_of_string s.

Definition newline : ascii := ascii_of_nat 10.

(** The code of a character literal, as the [int] a [case] label has. *)
Definition chr (s : string) : Z :=
  match s with
  | String c _ => Z.of_nat (nat_of_ascii c)
  | EmptyString => 0
  end.

(** [(char) ch]. *)
Definition to_char (ch : Z) : ascii := ascii_of_nat (Z.to_nat (ch mod 256)).

(** [s.length()], [v.size()]. *)
Definition size {A} (l : list A) : Z := Z.of_nat (length l).

(** [s.insert(pos, 1, c)]. *)
Definition str_insert (s : std_string) (pos : Z) (c : ascii) : outcome std_string :=
  if size s <? pos then OutOfRange
  else Ok (take (Z.to_nat pos) s ++ c :: drop (Z.to_nat pos) s).

(** [s.erase(pos, n)]: removes [min n (size - pos)] characters. *)
Definition str_erase (s : std_string) (pos n : Z) : outcome std_string :=
  if size s <? pos then OutOfRange
  else Ok (take (Z.to_nat pos) s ++ drop (Z.to_nat (pos + Z.min n (size s - pos))) s).

(** [s.substr(pos, n)]; [s.substr(pos)] is [substr s pos npos]. *)
Definition substr (s : std_string) (pos n : Z) : outcome std_string :=
  if size s <? pos then OutOfRange
  else Ok (take (Z.to_nat (Z.min n (size s - pos))) (drop (Z.to_nat pos) s)).

(** ** std::vector *)

(** [v[i]], read. *)
Definition vec_get {A} (v : list A) (i : Z) : outcome A :=
  match v !! Z.to_nat i with
  | Some x => if 0 <=? i then Ok x else UB
  | None => UB
  end.

(** [v[i] = x]. *)
Definition vec_set {A} (v : list A) (i : Z) (x : A) : outcome (list A) :=
  if (0 <=? i) && (i <? size v) then Ok (<[Z.to_nat i := x]> v) else UB.

(** [it + n] on an iterator of [v], iterators being offsets from [begin()]. *)
Definition iter_add {A} (v : list A) (it n : Z) : outcome Z :=
  if (0 <=? it + n) && (it + n <=? size v) then Ok (it + n) else UB.

(** [v.insert(it, x)]. *)
Definition vec_insert {A} (v : list A) (it : Z) (x : A) : outcome (list A) :=
  if (0 <=? it) && (it <=? size v)
  then Ok (take (Z.to_nat it) v ++ x :: drop (Z.to_nat it) v)
  else UB.

(** [v.erase(it)]: [it] must be dereferenceable. *)
Definition vec_erase {A} (v : list A) (it : Z) : outcome (list A) :=
  if (0 <=? it) && (it <? size v) then Ok (delete (Z.to_nat it) v) else UB.

(** ** Key codes

    The [KEY_*] macros are those of ncurses' curses.h (octal 0402, 0403,
    0404, 0405 and 0407). *)

Definition KEY_DOWN : Z := 258.
Definition KEY_UP : Z := 259.
Definition KEY_LEFT : Z := 260.
Definition KEY_RIGHT : Z := 261.
Definition KEY_BACKSPACE : Z := 263.

(** ** The editor *)

Inductive Mode : Type := NORMAL | INSERT.

Record Editor : Type := mkEditor {
  filename : string;
  content : list std_string;
  copy_buffer : std_string;
  cursor_x : Z;
  cursor_y : Z;
  offset_x : Z;
  offset_y : Z;
  mode : Mode
}.

Definition set_content (c : list std_string) (e : Editor) : Editor :=
  mkEditor (filename e) c (copy_buffer e) (cursor_x e) (cursor_y e)
           (offset_x e) (offset_y e) (mode e).
Definition set_copy_buffer (b : std_string) (e : Editor) : Editor :=
  mkEditor (filename e) (content e) b (cursor_x e) (cursor_y e)
           (offset_x e) (offset_y e) (mode e).
Definition set_cursor_x (x : Z) (e : Editor) : Editor :=
  mkEditor (filename e) (content e) (copy_buffer e) x (cursor_y e)
           (offset_x e) (offset_y e) (mode e).
Definition set_cursor_y (y : Z) (e : Editor) : Editor :=
  mkEditor (filename e) (content e) (copy_buffer e) (cursor_x e) y
           (offset_x e) (offset_y e) (mode e).
Definition set_offset_x (x : Z) (e : Editor) : Editor :=
  mkEditor (filename e) (content e) (copy_buffer e) (cursor_x e) (cursor_y e)
           x (offset_y e) (mode e).
Definition set_offset_y (y : Z) (e : Editor) : Editor :=
  mkEditor (filename e) (content e) (copy_buffer e) (cursor_x e) (cursor_y e)
           (offset_x e) y (mode e).
Definition set_mode (m : Mode) (e : Editor) : Editor :=
  mkEditor (filename e) (content e) (copy_buffer e) (cursor_x e) (cursor_y e)
           (offset_x e) (offset_y e) m.

(** [content.begin() + cursor_y + 1]. *)
Definition below_cursor (e : Editor) : outcome Z :=
  it ← iter_add (content e) 0 (cursor_y e);
  iter_add (content e) it 1.

(** [Editor::handleNormalMode]. *)
Definition handleNormalMode (ch : Z) (e : Editor) : outcome Editor :=
  if ch =? KEY_UP then
    Ok (if 0 <? cursor_y e then set_cursor_y (to_int (cursor_y e - 1)) e else e)
  else if ch =? KEY_DOWN then
    Ok (if to_size_t (cursor_y e) <? to_size_t (size (content e) - 1)
        then set_cursor_y (to_int (cursor_y e + 1)) e else e)
  else if ch =? KEY_LEFT then
    Ok (if 0 <? cursor_x e then set_cursor_x (to_int (cursor_x e - 1)) e else e)
  else if ch =? KEY_RIGHT then
    line ← vec_get (content e) (to_size_t (cursor_y e));
    Ok (if to_size_t (cursor_x e) <? size line
        then set_cursor_x (to_int (cursor_x e + 1)) e else e)
  else if ch =? chr "i" then
    Ok (set_mode INSERT e)
  else if ch =? chr "d" then
    e1 ← (if 1 <? size (content e) then
            it ← iter_add (content e) 0 (cursor_y e);
            c ← vec_erase (content e) it;
            Ok (if size c <=? to_size_t (cursor_y e)
                then set_cursor_y (to_int (cursor_y e - 1)) (set_content c e)
                else set_content c e)
          else
            c ← vec_set (content e) 0 (lit "");
            Ok (set_content c e));
    Ok (set_cursor_x 0 e1)
  else if ch =? chr "y" then
    line ← vec_get (content e) (to_size_t (cursor_y e));
    Ok (set_copy_buffer line e)
  else if ch =? chr "p" then
    it ← below_cursor e;
    c ← vec_insert (content e) it (copy_buffer e);
    Ok (set_cursor_y (to_int (cursor_y e + 1)) (set_content c e))
  else if ch =? chr "o" then
    it ← below_cursor e;
    c ← vec_insert (content e) it (lit "");
    Ok (set_cursor_x 0 (set_cursor_y (to_int (cursor_y e + 1)) (set_content c e)))
  else Ok e.

(** [Editor::handleInsertMode]. *)
Definition handleInsertMode (ch : Z) (e : Editor) : outcome Editor :=
  if ch =? 27 then
    Ok (set_mode NORMAL e)
  else if (ch =? KEY_BACKSPACE) || (ch =? 127) then
    if 0 <? cursor_x e then
      line ← vec_get (content e) (to_size_t (cursor_y e));
      line' ← str_erase line (to_size_t (to_int (cursor_x e - 1))) 1;
      c ← vec_set (content e) (to_size_t (cursor_y e)) line';
      Ok (set_cursor_x (to_int (cursor_x e - 1)) (set_content c e))
    else Ok e
  else if ch =? chr (String newline EmptyString) then
    it ← below_cursor e;
    line ← vec_get (content e) (to_size_t (cursor_y e));
    rest ← substr line (to_size_t (cursor_x e)) npos;
    c1 ← vec_insert (content e) it rest;
    line1 ← vec_get c1 (to_size_t (cursor_y e));
    front ← substr line1 0 (to_size_t (cursor_x e));
    c2 ← vec_set c1 (to_size_t (cursor_y e)) front;
    Ok (set_cursor_x 0 (set_cursor_y (to_int (cursor_y e + 1)) (set_content c2 e)))
  else if (32 <=? ch) && (ch <=? 126) then
    line ← vec_get (content e) (to_size_t (cursor_y e));
    line' ← str_insert line (to_size_t (cursor_x e)) (to_char ch);
    c ← vec_set (content e) (to_size_t (cursor_y e)) line';
    Ok (set_cursor_x (to_int (cursor_x e + 1)) (set_content c e))
  else Ok e.

(** ** The screen *)

(** What [getmaxyx(stdscr, max_y, max_x)] reports. *)
Record Terminal : Type := mkTerminal { max_y : Z; max_x : Z }.

(** The two scrolling statements of [draw], for one axis. *)
Definition scroll (cursor offset extent : Z) : Z :=
  if cursor <? offset then cursor
  else if to_int (to_int (offset + extent) - 1) <=? cursor
       then to_int (to_int (cursor - extent) + 1)
       else offset.

(** The text loop of [draw]: rows [offset_y, offset_y + max_y - 1) that
    exist, each cut by [substr(offset_x, max_x)].  The result is the text
    handed to [mvprintw], screen row by screen row. *)
Definition render (t : Terminal) (e : Editor) : outcome (list std_string) :=
  mapM (fun line => substr line (to_size_t (offset_x e)) (to_size_t (max_x t)))
       (take (Z.to_nat (to_size_t (to_int (max_y t - 1))))
             (drop (Z.to_nat (to_size_t (offset_y e))) (content e))).

(** [Editor::draw]. *)
Definition draw (t : Terminal) (e : Editor) : outcome Editor :=
  let e1 := set_offset_y (scroll (cursor_y e) (offset_y e) (max_y t)) e in
  let e2 := set_offset_x (scroll (cursor_x e1) (offset_x e1) (max_x t)) e1 in
  _ ← render t e2;
  Ok e2.

(** ** Files *)

(** The files an [ifstream] can open, with their bytes, and the paths an
    [ofstream] cannot open.  A file the program has written can be read
    back. *)
Record filesystem : Type := mkFs {
  files : gmap string std_string;
  unwritable : gset string
}.

(** The characters [std::getline] stores and what is left of the stream:
    everything up to the first newline, which is consumed and dropped. *)
Fixpoint extract_line (s : std_string) : std_string * std_string :=
  match s with
  | [] => ([], [])
  | c :: s' =>
      if Ascii.eqb c newline then ([], s')
      else let '(l, r) := extract_line s' in (c :: l, r)
  end.

(** [getline(file, line)] as the loop condition: it fails exactly when no
    character is left to extract. *)
Definition getline (s : std_string) : option (std_string * std_string) :=
  match s with
  | [] => None
  | _ :: _ => Some (extract_line s)
  end.

(** A value together with the equation that names it, for the loop below. *)
Definition inspect {A} (a : A) : {b : A | a = b} := exist _ a eq_refl.

(** [while (getline(file, line)) content.push_back(line);] *)
Equations? read_lines (s : std_string) (c : list std_string) : list std_string
  by wf (length s) lt :=
  read_lines s c with inspect (getline s) := {
    | exist _ (Some p) _ => read_lines p.2 (c ++ [p.1])
    | exist _ None _ => c }.
Proof.
  assert (forall u : std_string, (length (extract_line u).2 <= length u)%nat)
    as Hshort.
  { induction u as [|a u IH]; simpl; [lia|].
    destruct (Ascii.eqb a newline); simpl; [lia|].
    destruct (extract_line u); simpl in *; lia. }
  destruct s as [|a s]; [discriminate|].
  match goal with H : getline _ = Some _ |- _ => injection H as H end.
  specialize (Hshort s). simpl in *.
  destruct (Ascii.eqb a newline).
  - match goal with H : (_, _) = (_, _) |- _ => injection H as _ <- end. lia.
  - destruct (extract_line s); simpl in *.
    match goal with H : (_, _) = (_, _) |- _ => injection H as _ <- end. lia.
Qed.

(** [Editor::loadFile]. *)
Definition loadFile (fs : filesystem) (e : Editor) : Editor :=
  match files fs !! filename e with
  | Some bytes =>
      let c := read_lines bytes (content e) in
      set_content (match c with [] => c ++ [lit ""] | _ :: _ => c end) e
  | None => e
  end.

(** What [file << line << "\n"] appends for every line. *)
Definition written (c : list std_string) : std_string :=
  concat (map (fun line => line ++ [newline]) c).

(** [Editor::saveFile]. *)
Definition saveFile (fs : filesystem) (e : Editor) : filesystem :=
  if decide (filename e ∈ unwritable fs) then fs
  else mkFs (<[filename e := written (content e)]> (files fs)) (unwritable fs).

(** The member initialisers of the constructor. *)
Definition init (name : string) : Editor :=
  mkEditor name [] (lit "") 0 0 0 0 NORMAL.

(** [Editor::Editor]. *)
Definition Editor_new (fs : filesystem) (t : Terminal) (name : string) : outcome Editor :=
  draw t (loadFile fs (init name)).

(** ** The input loop *)

(** One iteration's input: the key [getch] returns and the terminal size the
    [draw] that follows it observes. *)
Record input : Type := mkInput { key : Z; screen : Terminal }.

(** The [switch (mode)] of [run]. *)
Definition dispatch (ch : Z) (e : Editor) : outcome Editor :=
  match mode e with
  | NORMAL => handleNormalMode ch e
  | INSERT => handleInsertMode ch e
  end.

(** Where [run] stands once the given keys are consumed: still blocked in
    [getch], or returned after [saveFile]. *)
Inductive session : Type :=
| Waiting (e : Editor)
| Finished (e : Editor) (fs : filesystem).

(** [Editor::run]. *)
Fixpoint run (fs : filesystem) (keys : list input) (e : Editor) : outcome session :=
  match keys with
  | [] => Ok (Waiting e)
  | k :: keys' =>
      if key k =? chr "q" then Ok (Finished e (saveFile fs e))
      else
        e1 ← dispatch (key k) e;
        e2 ← draw (screen k) e1;
        run fs keys' e2
  end.

(** [main], for a command line that names a file. *)
Definition main (fs : filesystem) (t : Terminal) (name : string) (keys : list input)
  : outcome session :=
  e ← Editor_new fs t name;
  run fs keys e.

(** ** Sequences of operations and well-formedness *)

(** The delete-line key pressed [n] times in Normal mode. *)
Fixpoint delete_lines (n : nat) (e : Editor) : outcome Editor :=
  match n with
  | O => Ok e
  | S n' => e' ← handleNormalMode (chr "d") e; delete_lines n' e'
  end.

(** A sequence of keys handled in Normal mode. *)
Fixpoint normal_keys (keys : list Z) (e : Editor) : outcome Editor :=
  match keys with
  | [] => Ok e
  | k :: keys' => e' ← handleNormalMode k e; normal_keys keys' e'
  end.

(** The cursor row names a line of the buffer. *)
Definition valid_row (e : Editor) : Prop :=
  0 <= cursor_y e < size (content e).

(** The line under the cursor, for a valid row. *)
Definition current_line (e : Editor) : std_string :=
  default [] (content e !! Z.to_nat (cursor_y e)).

(** The cursor column is an insertion point of the current line. *)
Definition valid_col (e : Editor) : Prop :=
  0 <= cursor_x e <= size (current_line e).

(** The viewport invariant on one axis. *)
Definition in_view (cursor offset extent : Z) : Prop :=
  offset <= cursor <= offset + extent - 2.

(** The character [a] is somewhere in the buffer or in the register. *)
Definition occurs (a : ascii) (e : Editor) : Prop :=
  (exists l, l ∈ content e /\ a ∈ l) \/ a ∈ copy_buffer e.

(** The editor a session holds. *)
Definition editor_of (s : session) : Editor :=
  match s with
  | Waiting e => e
  | Finished e _ => e
  end.

(** ** States used as examples

    The start states of scenarios B and C of the specification. *)

Definition scenario_B : Editor :=
  mkEditor "f" [lit "abc"; lit "def"] (lit "") 1 0 0 0 NORMAL.

Definition scenario_C : Editor :=
  mkEditor "f" [lit "only line"] (lit "") 0 0 0 0 NORMAL.

(** A cursor at the end of a long first line, above a short second line. *)
Definition long_over_short : Editor :=
  mkEditor "f" [lit "hello"; lit "hi"] (lit "") 5 0 0 0 NORMAL.

(** A standard 24 x 80 terminal, a file of thirty lines and a file with one
    line of a hundred characters. *)
Definition vt100 : Terminal := mkTerminal 24 80.

Definition thirty_lines : filesystem :=
  mkFs {[ "long.txt" := written (replicate 30 (lit "line")) ]} ∅.

Definition wide_line : filesystem :=
  mkFs {[ "wide.txt" := written [replicate 100 "x"%char] ]} ∅.

(** ** The rest of the program *)



(** The cursor names a line and an insertion point of that line, and the
    line count and that line's length leave room for one more in an [int]. *)
Definition valid_cursor (e : Editor) : Prop :=
  valid_row e /\ valid_col e /\
  size (content e) <= INT_MAX /\ size (current_line e) < INT_MAX.

(** The bytes [s] followed by a newline, unless [s] is empty or already
    ends with one. *)
Definition newline_terminated (s : std_string) : std_string :=
  match last s with
  | None => []
  | Some c => if Ascii.eqb c newline then s else s ++ [newline]
  end.

(** How the process ends: it returns from [main] with an exit status,
    having left the files [fs] and printed [out] on the standard output, or
    it is still in the input loop. *)
Inductive ending : Type :=
| Exit (status : Z) (fs : filesystem) (out : std_string)
| Editing (e : Editor).

(** [main], with [argv[0]] and the arguments after it. *)
Definition main_args (fs : filesystem) (t : Terminal) (argv0 : string)
    (args : list string) (keys : list input) : outcome ending :=
  match args with
  | [] => Ok (Exit 1 fs (lit "Usage: " ++ lit argv0 ++ lit " <filename>" ++ [newline]))
  | name :: _ =>
      s ← main fs t name keys;
      Ok (match s with
          | Waiting e => Editing e
          | Finished _ fs' => Exit 0 fs' []
          end)
  end.

(** The state in which paste-line puts the cursor beyond the pasted line. *)
Definition paste_short : Editor :=
  mkEditor "f" [lit "hello"] (lit "") 5 0 0 0 NORMAL.

(** The editor after the scrolling statements of [draw]. *)
Definition scrolled (t : Terminal) (e : Editor) : Editor :=
  let e1 := set_offset_y (scroll (cursor_y e) (offset_y e) (max_y t)) e in
  set_offset_x (scroll (cursor_x e1) (offset_x e1) (max_x t)) e1.

(** Cursor, offset and window extent on one axis for which the scrolling
    arithmetic stays inside [int]. *)
Definition scrollable (cursor offset extent : Z) : Prop :=
  0 <= cursor < INT_MAX /\ 0 <= offset /\ 1 <= extent /\
  offset + extent <= INT_MAX.


(** * Lemmas *)

Section Integers.

Lemma to_int_id (z : Z) : is_int z -> to_int z = z.
Proof.
  unfold is_int, INT_MIN, INT_MAX, to_int. intros H.
  rewrite Z.mod_small; lia.
Qed.

Lemma to_int_is_int (z : Z) : is_int (to_int z).
Proof.
  unfold is_int, INT_MIN, INT_MAX, to_int.
  pose proof (Z.mod_pos_bound (z + 2 ^ 31) (2 ^ 32)). lia.
Qed.

Lemma to_size_t_id (z : Z) : 0 <= z < 2 ^ 64 -> to_size_t z = z.
Proof. unfold to_size_t. intros H. apply Z.mod_small. lia. Qed.

Lemma to_size_t_int (z : Z) : 0 <= z -> is_int z -> to_size_t z = z.
Proof.
  unfold is_int, INT_MAX. intros H0 H. apply to_size_t_id. lia.
Qed.

Lemma to_size_t_neg (z : Z) : z < 0 -> is_int z -> 2 ^ 63 <= to_size_t z.
Proof.
  unfold is_int, INT_MIN, to_size_t. intros H0 H.
  replace z with (z + 2 ^ 64 + (-1) * 2 ^ 64) by lia.
  rewrite Z.mod_add by lia. rewrite Z.mod_small; lia.
Qed.

End Integers.

Section Containers.
Context {A : Type}.
Implicit Types (v : list A) (i : Z).

Lemma size_nonneg v : 0 <= size v.
Proof. unfold size. lia. Qed.

Lemma vec_get_ok v i :
  0 <= i < size v ->
  exists x, v !! Z.to_nat i = Some x /\ vec_get v i = Ok x.
Proof.
  unfold size, vec_get. intros H.
  destruct (lookup_lt_is_Some_2 v (Z.to_nat i)) as [x Hx]; [lia|].
  exists x. rewrite Hx. split; [done|].
  destruct (Z.leb_spec 0 i); [done | lia].
Qed.

Lemma vec_set_ok v i x :
  0 <= i < size v -> vec_set v i x = Ok (<[Z.to_nat i := x]> v).
Proof.
  unfold vec_set. intros H.
  destruct (Z.leb_spec 0 i); [|lia].
  destruct (Z.ltb_spec i (size v)); [done | lia].
Qed.

Lemma iter_add_ok v it n :
  0 <= it + n <= size v -> iter_add v it n = Ok (it + n).
Proof.
  unfold iter_add. intros H.
  destruct (Z.leb_spec 0 (it + n)); [|lia].
  destruct (Z.leb_spec (it + n) (size v)); [done | lia].
Qed.

Lemma vec_insert_ok v it x :
  0 <= it <= size v ->
  vec_insert v it x = Ok (take (Z.to_nat it) v ++ x :: drop (Z.to_nat it) v).
Proof.
  unfold vec_insert. intros H.
  destruct (Z.leb_spec 0 it); [|lia].
  destruct (Z.leb_spec it (size v)); [done | lia].
Qed.

Lemma vec_erase_ok v it :
  0 <= it < size v -> vec_erase v it = Ok (delete (Z.to_nat it) v).
Proof.
  unfold vec_erase. intros H.
  destruct (Z.leb_spec 0 it); [|lia].
  destruct (Z.ltb_spec it (size v)); [done | lia].
Qed.

Lemma size_delete v (n : nat) :
  (n < length v)%nat -> size (delete n v) = size v - 1.
Proof.
  unfold size. intros H.
  pose proof (length_delete v n (lookup_lt_is_Some_2 v n H)). lia.
Qed.

Lemma size_app v w : size (v ++ w) = size v + size w.
Proof. unfold size. rewrite length_app. lia. Qed.

Lemma size_insert_at v (n : nat) x :
  size (take n v ++ x :: drop n v) = size v + 1.
Proof.
  unfold size. rewrite length_app. simpl.
  rewrite length_take, length_drop. lia.
Qed.

End Containers.

Lemma below_cursor_ok (e : Editor) :
  valid_row e -> below_cursor e = Ok (cursor_y e + 1).
Proof.
  unfold valid_row, below_cursor. intros H.
  rewrite iter_add_ok by lia. simpl.
  rewrite iter_add_ok; [done | lia].
Qed.

(** ** Normal mode, key by key *)

Lemma normal_up (e : Editor) :
  handleNormalMode KEY_UP e =
  Ok (if 0 <? cursor_y e then set_cursor_y (to_int (cursor_y e - 1)) e else e).
Proof. reflexivity. Qed.

Lemma normal_down (e : Editor) :
  handleNormalMode KEY_DOWN e =
  Ok (if to_size_t (cursor_y e) <? to_size_t (size (content e) - 1)
      then set_cursor_y (to_int (cursor_y e + 1)) e else e).
Proof. reflexivity. Qed.

Lemma normal_delete_many (e : Editor) :
  1 < size (content e) -> valid_row e -> is_int (cursor_y e) ->
  handleNormalMode (chr "d") e =
  Ok (set_cursor_x 0
        (let c := delete (Z.to_nat (cursor_y e)) (content e) in
         if size c <=? cursor_y e
         then set_cursor_y (cursor_y e - 1) (set_content c e)
         else set_content c e)).
Proof.
  unfold valid_row. intros Hlen Hrow Hint.
  change (handleNormalMode (chr "d") e) with
    (e1 ← (if 1 <? size (content e) then
             it ← iter_add (content e) 0 (cursor_y e);
             c ← vec_erase (content e) it;
             Ok (if size c <=? to_size_t (cursor_y e)
                 then set_cursor_y (to_int (cursor_y e - 1)) (set_content c e)
                 else set_content c e)
           else
             c ← vec_set (content e) 0 (lit "");
             Ok (set_content c e));
     Ok (set_cursor_x 0 e1)).
  destruct (Z.ltb_spec 1 (size (content e))); [|lia].
  rewrite iter_add_ok by lia. rewrite Z.add_0_l. simpl.
  rewrite vec_erase_ok by lia. simpl.
  rewrite to_size_t_int by (unfold is_int in *; lia).
  rewrite !size_delete by (unfold size in *; lia).
  destruct (Z.leb_spec (size (content e) - 1) (cursor_y e)); [|done].
  rewrite to_int_id; [done|]. unfold is_int, INT_MIN in *. lia.
Qed.

Lemma normal_delete_last (e : Editor) :
  size (content e) = 1 ->
  handleNormalMode (chr "d") e = Ok (set_cursor_x 0 (set_content [lit ""] e)).
Proof.
  intros Hlen.
  change (handleNormalMode (chr "d") e) with
    (e1 ← (if 1 <? size (content e) then
             it ← iter_add (content e) 0 (cursor_y e);
             c ← vec_erase (content e) it;
             Ok (if size c <=? to_size_t (cursor_y e)
                 then set_cursor_y (to_int (cursor_y e - 1)) (set_content c e)
                 else set_content c e)
           else
             c ← vec_set (content e) 0 (lit "");
             Ok (set_content c e));
     Ok (set_cursor_x 0 e1)).
  destruct (content e) as [|l [|l' c]];
    unfold size in Hlen; simpl in Hlen; try lia.
  reflexivity.
Qed.

(** One delete-line step keeps the buffer non-empty and the row valid. *)
Lemma normal_delete_step (e : Editor) :
  1 <= size (content e) -> valid_row e -> is_int (cursor_y e) ->
  exists e', handleNormalMode (chr "d") e = Ok e' /\
    content e' = (if 1 <? size (content e)
                  then delete (Z.to_nat (cursor_y e)) (content e)
                  else [lit ""]) /\
    1 <= size (content e') /\ valid_row e' /\ is_int (cursor_y e').
Proof.
  intros Hlen Hrow Hint.
  destruct (Z.ltb_spec 1 (size (content e))) as [Hmany|Hone].
  - rewrite normal_delete_many by done. eexists; split; [done|].
    pose proof (size_delete (content e) (Z.to_nat (cursor_y e))) as Hs.
    unfold valid_row in *.
    cbv zeta. rewrite Hs by (unfold size in *; lia).
    destruct (Z.leb_spec (size (content e) - 1) (cursor_y e)); simpl;
      rewrite ?Hs by (unfold size in *; lia);
      repeat split; try done; unfold is_int, INT_MIN, INT_MAX in *; lia.
  - rewrite normal_delete_last by lia. eexists; split; [done|].
    unfold valid_row, is_int, INT_MIN, INT_MAX in *. simpl.
    change (size [[]]) with 1.
    repeat split; try done; lia.
Qed.

Lemma delete_lines_keep_one_line (n : nat) : forall e : Editor,
  1 <= size (content e) -> valid_row e -> is_int (cursor_y e) ->
  exists e', delete_lines n e = Ok e' /\
    1 <= size (content e') /\ valid_row e' /\ is_int (cursor_y e').
Proof.
  induction n as [|n IH]; intros e Hlen Hrow Hint; cbn [delete_lines].
  - by exists e.
  - destruct (normal_delete_step e Hlen Hrow Hint)
      as (e1 & -> & _ & Hlen1 & Hrow1 & Hint1).
    by apply IH.
Qed.


(** ** Vertical movement *)

Lemma normal_up_valid (e : Editor) :
  valid_row e -> is_int (cursor_y e) ->
  handleNormalMode KEY_UP e = Ok (set_cursor_y (Z.max 0 (cursor_y e - 1)) e).
Proof.
  unfold valid_row, is_int, INT_MIN, INT_MAX. intros Hrow Hint.
  rewrite normal_up. f_equal.
  destruct (Z.ltb_spec 0 (cursor_y e)).
  - rewrite to_int_id by (unfold is_int, INT_MIN, INT_MAX; lia).
    f_equal. lia.
  - replace (Z.max 0 (cursor_y e - 1)) with (cursor_y e) by lia.
    by destruct e.
Qed.

Lemma normal_down_valid (e : Editor) :
  valid_row e -> size (content e) <= INT_MAX ->
  handleNormalMode KEY_DOWN e =
  Ok (set_cursor_y (Z.min (size (content e) - 1) (cursor_y e + 1)) e).
Proof.
  unfold valid_row, INT_MAX. intros Hrow Hfit.
  rewrite normal_down. f_equal.
  rewrite !to_size_t_id by lia.
  destruct (Z.ltb_spec (cursor_y e) (size (content e) - 1)).
  - rewrite to_int_id by (unfold is_int, INT_MIN, INT_MAX; lia).
    f_equal. lia.
  - replace (Z.min (size (content e) - 1) (cursor_y e + 1)) with (cursor_y e) by lia.
    by destruct e.
Qed.

(** ** Deleting lines *)

Example scenario_B_delete_line :
  handleNormalMode (chr "d") scenario_B =
  Ok (mkEditor "f" [lit "def"] (lit "") 0 0 0 0 NORMAL).
Proof. reflexivity. Qed.

Example scenario_C_delete_line :
  handleNormalMode (chr "d") scenario_C =
  Ok (mkEditor "f" [lit ""] (lit "") 0 0 0 0 NORMAL).
Proof. reflexivity. Qed.

(** Deleting lines at rows chosen by moving up and down in between. *)
Lemma normal_keys_keep_one_line (keys : list Z) : forall e : Editor,
  Forall (fun k => k = chr "d" \/ k = KEY_UP \/ k = KEY_DOWN) keys ->
  1 <= size (content e) <= INT_MAX -> valid_row e ->
  exists e', normal_keys keys e = Ok e' /\
    1 <= size (content e') <= INT_MAX /\ valid_row e'.
Proof.
  induction keys as [|k keys IH]; intros e Hkeys Hlen Hrow; cbn [normal_keys].
  - by exists e.
  - apply Forall_cons in Hkeys as [Hk Hkeys].
    assert (is_int (cursor_y e)) as Hint
      by (unfold valid_row, is_int, INT_MIN, INT_MAX in *; lia).
    destruct Hk as [-> | [-> | ->]].
    + destruct (normal_delete_step e (proj1 Hlen) Hrow Hint)
        as (e1 & -> & Hc & Hlen1 & Hrow1 & _).
      apply IH; [done| |done]. split; [done|].
      rewrite Hc. unfold valid_row in Hrow.
      destruct (1 <? size (content e)).
      * rewrite size_delete by (unfold size in *; lia). lia.
      * by vm_compute.
    + rewrite normal_up_valid by done.
      apply IH; [done|done|]. unfold valid_row in *. simpl. lia.
    + rewrite normal_down_valid by (done || lia).
      apply IH; [done|done|]. unfold valid_row in *. simpl. lia.
Qed.

(** C2. From a buffer of at least one line with the cursor on one of its
    rows, a delete-line command removes the cursor's line when there is
    more than one line and otherwise replaces the only line by the empty
    line; any number of delete-line commands runs to completion and leaves
    at least one line, and so does any sequence of delete-line commands
    with moves up and down in between (for a buffer whose rows an [int]
    can number). *)
Theorem delete_line_keeps_one_line (e : Editor) :
  1 <= size (content e) -> valid_row e -> is_int (cursor_y e) ->
  (exists e1, handleNormalMode (chr "d") e = Ok e1 /\
     content e1 = (if 1 <? size (content e)
                   then delete (Z.to_nat (cursor_y e)) (content e)
                   else [lit ""])) /\
  (forall n : nat,
     exists e', delete_lines n e = Ok e' /\ 1 <= size (content e')) /\
  (forall keys : list Z,
     Forall (fun k => k = chr "d" \/ k = KEY_UP \/ k = KEY_DOWN) keys ->
     size (content e) <= INT_MAX ->
     exists e', normal_keys keys e = Ok e' /\ 1 <= size (content e')).
Proof.
  intros Hlen Hrow Hint. split; [|split].
  - destruct (normal_delete_step e Hlen Hrow Hint) as (e1 & H1 & Hc & _).
    by exists e1.
  - intros n.
    destruct (delete_lines_keep_one_line n e Hlen Hrow Hint) as (e' & H & Hl & _).
    by exists e'.
  - intros keys Hkeys Hfit.
    destruct (normal_keys_keep_one_line keys e Hkeys (conj Hlen Hfit) Hrow)
      as (e' & H & Hl & _).
    exists e'. split; [done|lia].
Qed.

Lemma delete_line_keeps_one_line_witness :
  (exists e1, handleNormalMode (chr "d") scenario_B = Ok e1 /\
     content e1 = [lit "def"]) /\
  (forall n : nat,
     exists e', delete_lines n scenario_B = Ok e' /\ 1 <= size (content e')) /\
  (forall keys : list Z,
     Forall (fun k => k = chr "d" \/ k = KEY_UP \/ k = KEY_DOWN) keys ->
     size (content scenario_B) <= INT_MAX ->
     exists e', normal_keys keys scenario_B = Ok e' /\ 1 <= size (content e')).
Proof.
  apply (delete_line_keeps_one_line scenario_B);
    unfold valid_row, is_int, INT_MIN, INT_MAX, size; simpl; lia.
Defined.

(** C9. In Normal mode, for a buffer of at least one line with the cursor on
    one of its rows, the up key moves the row to [max 0 (row - 1)] and the
    down key to [min (len - 1) (row + 1)], so the row stays within
    [0, len - 1], and nothing else changes: in particular the column is kept
    as it was.  There is a state with a valid cursor from which the down key
    leaves the column beyond the length of the new row. *)
Theorem vertical_move_clamps_row_only :
  (forall (e : Editor) (ch : Z),
     ch = KEY_UP \/ ch = KEY_DOWN ->
     1 <= size (content e) <= INT_MAX -> valid_row e ->
     exists e', handleNormalMode ch e = Ok e' /\
       cursor_y e' = (if ch =? KEY_UP then Z.max 0 (cursor_y e - 1)
                      else Z.min (size (content e) - 1) (cursor_y e + 1)) /\
       0 <= cursor_y e' <= size (content e') - 1 /\
       cursor_x e' = cursor_x e /\
       e' = set_cursor_y (cursor_y e') e) /\
  (exists e e', valid_row e /\ valid_col e /\
     handleNormalMode KEY_DOWN e = Ok e' /\
     size (current_line e') < cursor_x e').
Proof.
  split.
  - intros e ch Hch Hlen Hrow.
    assert (is_int (cursor_y e)) as Hint
      by (unfold valid_row, is_int, INT_MIN, INT_MAX in *; lia).
    destruct Hch as [-> | ->].
    + rewrite normal_up_valid by done. eexists; split; [done|].
      unfold valid_row in *. simpl. repeat split; try done; lia.
    + rewrite normal_down_valid by (done || lia). eexists; split; [done|].
      unfold valid_row in *. simpl. repeat split; try done; lia.
  - exists long_over_short. eexists.
    split; [|split; [|split; [reflexivity|]]]; by vm_compute.
Qed.

Lemma vertical_move_clamps_row_only_witness :
  exists e', handleNormalMode KEY_DOWN long_over_short = Ok e' /\
    cursor_y e' = 1 /\
    0 <= cursor_y e' <= size (content e') - 1 /\
    cursor_x e' = 5 /\
    e' = set_cursor_y (cursor_y e') long_over_short.
Proof.
  apply (proj1 vertical_move_clamps_row_only long_over_short KEY_DOWN).
  - right. reflexivity.
  - unfold INT_MAX, size. simpl. lia.
  - unfold valid_row, size. simpl. lia.
Defined.

(** ** Keys that Normal mode ignores *)

(** C10. In Normal mode a key that is neither an arrow key nor one of
    [i], [d], [y], [p], [o] leaves the whole editor state as it is: buffer,
    cursor, register and mode (and the scroll offsets too). *)
Theorem normal_mode_ignores_other_keys (e : Editor) (ch : Z) :
  mode e = NORMAL ->
  ch <> KEY_UP -> ch <> KEY_DOWN -> ch <> KEY_LEFT -> ch <> KEY_RIGHT ->
  ch <> chr "i" -> ch <> chr "d" -> ch <> chr "y" -> ch <> chr "p" ->
  ch <> chr "o" ->
  dispatch ch e = Ok e /\ handleNormalMode ch e = Ok e.
Proof.
  intros Hmode Hu Hd Hl Hr Hi Hdel Hy Hp Ho.
  assert (handleNormalMode ch e = Ok e) as H.
  { unfold handleNormalMode.
    repeat match goal with
           | |- context [ch =? ?k] =>
               destruct (Z.eqb_spec ch k); [congruence|]
           end.
    reflexivity. }
  split; [|exact H]. unfold dispatch. by rewrite Hmode.
Qed.

Lemma normal_mode_ignores_other_keys_witness :
  dispatch (chr "x") scenario_B = Ok scenario_B /\
  handleNormalMode (chr "x") scenario_B = Ok scenario_B.
Proof.
  apply (normal_mode_ignores_other_keys scenario_B (chr "x"));
    [reflexivity | vm_compute; discriminate ..].
Defined.

(** ** Copy and paste *)

(** A line inserted at position [n]: what each index then holds. *)
Lemma lookup_insert_at {A} (v : list A) (n i : nat) (x : A) :
  (n <= length v)%nat ->
  (take n v ++ x :: drop n v) !! i =
  if decide (i < n)%nat then v !! i
  else if decide (i = n) then Some x else v !! (i - 1)%nat.
Proof.
  intros Hn.
  assert (length (take n v) = n) as Hlen by (rewrite length_take; lia).
  destruct (decide (i < n)%nat) as [Hi|Hi].
  - rewrite lookup_app_l by lia. by apply lookup_take_lt.
  - rewrite lookup_app_r by lia. rewrite Hlen.
    destruct (decide (i = n)) as [->|Hne].
    + by rewrite Nat.sub_diag.
    + replace (i - n)%nat with (S (i - n - 1)) by lia.
      simpl. rewrite lookup_drop. f_equal. lia.
Qed.

Lemma normal_copy (e : Editor) :
  valid_row e -> is_int (cursor_y e) ->
  handleNormalMode (chr "y") e = Ok (set_copy_buffer (current_line e) e).
Proof.
  unfold valid_row, current_line. intros Hrow Hint.
  change (handleNormalMode (chr "y") e) with
    (line ← vec_get (content e) (to_size_t (cursor_y e));
     Ok (set_copy_buffer line e)).
  rewrite to_size_t_int by (done || lia).
  destruct (vec_get_ok (content e) (cursor_y e) Hrow) as (x & -> & ->).
  done.
Qed.

Lemma normal_paste (e : Editor) :
  valid_row e -> cursor_y e < INT_MAX ->
  handleNormalMode (chr "p") e =
  Ok (set_cursor_y (cursor_y e + 1)
        (set_content (take (Z.to_nat (cursor_y e + 1)) (content e) ++
                      copy_buffer e ::
                      drop (Z.to_nat (cursor_y e + 1)) (content e)) e)).
Proof.
  intros Hrow Hint.
  change (handleNormalMode (chr "p") e) with
    (it ← below_cursor e;
     c ← vec_insert (content e) it (copy_buffer e);
     Ok (set_cursor_y (to_int (cursor_y e + 1)) (set_content c e))).
  rewrite below_cursor_ok by done. simpl.
  unfold valid_row in Hrow.
  rewrite vec_insert_ok by lia. simpl.
  rewrite to_int_id; [done|].
  unfold is_int, INT_MIN, INT_MAX in *. lia.
Qed.

(** Scenario E of the specification. *)
Example scenario_E :
  let e := mkEditor "f" [lit "hello"; lit "world"] (lit "") 2 0 0 0 NORMAL in
  (e1 ← handleNormalMode (chr "y") e;
   e2 ← handleNormalMode KEY_DOWN e1;
   handleNormalMode (chr "p") e2) =
  Ok (mkEditor "f" [lit "hello"; lit "world"; lit "hello"] (lit "hello")
               2 2 0 0 NORMAL).
Proof. reflexivity. Qed.

(** C5. For a buffer of at least one line and a cursor on one of its rows,
    copy-line then paste-line both succeed; the register holds the line of
    the cursor's row and the paste leaves it unchanged; the new buffer has
    the copied line at [row + 1], the lines up to [row] where they were and
    every later line one index further down; the cursor row is [row + 1]. *)
Theorem copy_then_paste_duplicates_line (e : Editor) :
  1 <= size (content e) <= INT_MAX -> valid_row e ->
  exists e1 e2,
    handleNormalMode (chr "y") e = Ok e1 /\
    handleNormalMode (chr "p") e1 = Ok e2 /\
    content e !! Z.to_nat (cursor_y e) = Some (copy_buffer e1) /\
    content e1 = content e /\
    content e2 !! Z.to_nat (cursor_y e + 1) = Some (copy_buffer e1) /\
    (forall i : nat, (i <= Z.to_nat (cursor_y e))%nat ->
       content e2 !! i = content e !! i) /\
    (forall i : nat, (Z.to_nat (cursor_y e) < i)%nat ->
       content e2 !! S i = content e !! i) /\
    size (content e2) = size (content e) + 1 /\
    cursor_y e2 = cursor_y e + 1 /\
    copy_buffer e2 = copy_buffer e1.
Proof.
  intros Hlen Hrow.
  assert (is_int (cursor_y e) /\ cursor_y e < INT_MAX) as [Hint Hmax]
    by (unfold valid_row, is_int, INT_MIN, INT_MAX in *; lia).
  exists (set_copy_buffer (current_line e) e). eexists.
  split; [by apply normal_copy|].
  split; [by apply normal_paste|].
  unfold valid_row in Hrow.
  destruct (vec_get_ok (content e) (cursor_y e) Hrow) as (x & Hx & _).
  assert (Z.to_nat (cursor_y e + 1) <= length (content e))%nat as Hn
    by (unfold size in *; lia).
  cbn [content copy_buffer cursor_y set_copy_buffer set_cursor_y set_content].
  unfold current_line. rewrite Hx. cbn [default].
  repeat split; try done.
  - rewrite lookup_insert_at by done.
    destruct (decide _) as [?|_]; [lia|]. by destruct (decide _).
  - intros i Hi. rewrite lookup_insert_at by done.
    destruct (decide _) as [_|?]; [done|lia].
  - intros i Hi. rewrite lookup_insert_at by done.
    destruct (decide _) as [?|_]; [lia|].
    destruct (decide _) as [?|_]; [lia|]. f_equal. lia.
  - apply size_insert_at.
Qed.

Lemma copy_then_paste_duplicates_line_witness :
  exists e1 e2,
    handleNormalMode (chr "y") scenario_B = Ok e1 /\
    handleNormalMode (chr "p") e1 = Ok e2 /\
    content scenario_B !! 0%nat = Some (copy_buffer e1) /\
    content e1 = content scenario_B /\
    content e2 !! 1%nat = Some (copy_buffer e1) /\
    (forall i : nat, (i <= 0)%nat -> content e2 !! i = content scenario_B !! i) /\
    (forall i : nat, (0 < i)%nat -> content e2 !! S i = content scenario_B !! i) /\
    size (content e2) = 3 /\
    cursor_y e2 = 1 /\
    copy_buffer e2 = copy_buffer e1.
Proof.
  apply (copy_then_paste_duplicates_line scenario_B);
    unfold valid_row, INT_MAX, size; simpl; lia.
Defined.

(** ** std::string operations inside their range *)

Lemma vec_get_lookup {A} (v : list A) (i : Z) (x : A) :
  0 <= i -> v !! Z.to_nat i = Some x -> vec_get v i = Ok x.
Proof.
  unfold vec_get. intros Hi ->. by destruct (Z.leb_spec 0 i); [|lia].
Qed.

Lemma substr_tail (s : std_string) (pos : Z) :
  0 <= pos <= size s -> size s <= npos ->
  substr s pos npos = Ok (drop (Z.to_nat pos) s).
Proof.
  unfold substr. intros Hpos Hmax.
  destruct (Z.ltb_spec (size s) pos); [lia|]. f_equal.
  apply take_ge. rewrite length_drop. unfold size in *. lia.
Qed.

Lemma substr_front (s : std_string) (n : Z) :
  0 <= n -> substr s 0 n = Ok (take (Z.to_nat n) s).
Proof.
  unfold substr. intros Hn.
  pose proof (size_nonneg s).
  destruct (Z.ltb_spec (size s) 0); [lia|]. f_equal.
  change (Z.to_nat 0) with 0%nat. rewrite drop_0, Z.sub_0_r.
  destruct (Z.le_ge_cases n (size s)).
  - by rewrite Z.min_l.
  - rewrite Z.min_r by done. unfold size in *.
    rewrite !take_ge; [done | lia | lia].
Qed.

Lemma str_insert_ok (s : std_string) (pos : Z) (c : ascii) :
  0 <= pos <= size s ->
  str_insert s pos c = Ok (take (Z.to_nat pos) s ++ c :: drop (Z.to_nat pos) s).
Proof.
  unfold str_insert. intros Hpos.
  by destruct (Z.ltb_spec (size s) pos); [lia|].
Qed.

(** Erasing the character that was just inserted gives the string back. *)
Lemma str_erase_inserted (s : std_string) (pos : Z) (c : ascii) :
  0 <= pos <= size s ->
  str_erase (take (Z.to_nat pos) s ++ c :: drop (Z.to_nat pos) s) pos 1 = Ok s.
Proof.
  intros Hpos. unfold str_erase. rewrite size_insert_at.
  destruct (Z.ltb_spec (size s + 1) pos); [lia|]. f_equal.
  rewrite Z.min_l by lia.
  assert (length (take (Z.to_nat pos) s) = Z.to_nat pos) as Hlen
    by (rewrite length_take; unfold size in *; lia).
  rewrite take_app_length' by done.
  rewrite (cons_middle c), app_assoc.
  rewrite drop_app_length'
    by (rewrite length_app, Hlen; simpl; lia).
  apply take_drop.
Qed.

(** ** Insert mode, key by key *)

Lemma insert_backspace (bs : Z) (e : Editor) :
  bs = KEY_BACKSPACE \/ bs = 127 ->
  handleInsertMode bs e =
  if 0 <? cursor_x e then
    line ← vec_get (content e) (to_size_t (cursor_y e));
    line' ← str_erase line (to_size_t (to_int (cursor_x e - 1))) 1;
    c ← vec_set (content e) (to_size_t (cursor_y e)) line';
    Ok (set_cursor_x (to_int (cursor_x e - 1)) (set_content c e))
  else Ok e.
Proof. by intros [-> | ->]. Qed.

Lemma insert_printable (ch : Z) (e : Editor) :
  32 <= ch <= 126 ->
  handleInsertMode ch e =
  (line ← vec_get (content e) (to_size_t (cursor_y e));
   line' ← str_insert line (to_size_t (cursor_x e)) (to_char ch);
   c ← vec_set (content e) (to_size_t (cursor_y e)) line';
   Ok (set_cursor_x (to_int (cursor_x e + 1)) (set_content c e))).
Proof.
  intros Hch. unfold handleInsertMode, KEY_BACKSPACE.
  change (chr (String newline EmptyString)) with 10.
  destruct (Z.eqb_spec ch 27); [lia|].
  destruct (Z.eqb_spec ch 263); [lia|].
  destruct (Z.eqb_spec ch 127); [lia|].
  destruct (Z.eqb_spec ch 10); [lia|].
  destruct (Z.leb_spec 32 ch); [|lia].
  by destruct (Z.leb_spec ch 126); [|lia].
Qed.

Lemma current_line_lookup (e : Editor) :
  valid_row e -> content e !! Z.to_nat (cursor_y e) = Some (current_line e).
Proof.
  unfold valid_row, current_line. intros Hrow.
  by destruct (vec_get_ok (content e) (cursor_y e) Hrow) as (x & -> & _).
Qed.

Lemma insert_printable_valid (ch : Z) (e : Editor) :
  32 <= ch <= 126 -> valid_row e -> is_int (cursor_y e) -> valid_col e ->
  size (current_line e) < INT_MAX ->
  handleInsertMode ch e =
  Ok (set_cursor_x (cursor_x e + 1)
        (set_content
           (<[Z.to_nat (cursor_y e) :=
                take (Z.to_nat (cursor_x e)) (current_line e) ++
                to_char ch :: drop (Z.to_nat (cursor_x e)) (current_line e)]>
              (content e)) e)).
Proof.
  intros Hch Hrow Hint Hcol Hfit.
  pose proof (current_line_lookup e Hrow) as Hline.
  unfold valid_row, valid_col, INT_MAX in *.
  rewrite insert_printable by done.
  rewrite (to_size_t_int (cursor_y e)) by (done || lia).
  rewrite (vec_get_lookup _ _ _ (proj1 Hrow) Hline). simpl.
  rewrite to_size_t_id by lia.
  rewrite str_insert_ok by done. simpl.
  rewrite vec_set_ok by done. simpl.
  rewrite to_int_id; [done|]. unfold is_int, INT_MIN, INT_MAX. lia.
Qed.

Lemma insert_backspace_at_zero (bs : Z) (e : Editor) :
  bs = KEY_BACKSPACE \/ bs = 127 -> cursor_x e = 0 ->
  handleInsertMode bs e = Ok e.
Proof. intros Hbs Hx. rewrite insert_backspace by done. by rewrite Hx. Qed.

(** Scenario D of the specification. *)
Example scenario_D :
  let e := mkEditor "f" [lit "hello"] (lit "") 5 0 0 0 NORMAL in
  (e1 ← handleNormalMode (chr "i") e; handleInsertMode KEY_BACKSPACE e1) =
  Ok (mkEditor "f" [lit "hell"] (lit "") 4 0 0 0 INSERT).
Proof. reflexivity. Qed.

(** C7. In Insert mode, with the cursor on a row of the buffer and at a
    column [col] not beyond the end of that line, typing a printable ASCII
    character (codes 32 to 126) puts it at [col] and moves the cursor to
    [col + 1], and a backspace (either code) typed next gives back the
    editor state as it was, line content included.  A backspace at column
    0 changes nothing. *)
Theorem insert_then_backspace_restores (e : Editor) (ch bs : Z) :
  32 <= ch <= 126 -> bs = KEY_BACKSPACE \/ bs = 127 ->
  valid_row e -> is_int (cursor_y e) -> valid_col e ->
  size (current_line e) < INT_MAX ->
  (exists e1,
     handleInsertMode ch e = Ok e1 /\
     content e1 !! Z.to_nat (cursor_y e) =
       Some (take (Z.to_nat (cursor_x e)) (current_line e) ++
             to_char ch :: drop (Z.to_nat (cursor_x e)) (current_line e)) /\
     cursor_x e1 = cursor_x e + 1 /\
     handleInsertMode bs e1 = Ok e) /\
  (forall e0, cursor_x e0 = 0 -> handleInsertMode bs e0 = Ok e0).
Proof.
  intros Hch Hbs Hrow Hint Hcol Hfit.
  split; [|intros e0; by apply insert_backspace_at_zero].
  pose proof (current_line_lookup e Hrow) as Hline.
  eexists. split; [by apply insert_printable_valid|].
  unfold valid_row, valid_col, INT_MAX in *.
  assert (Z.to_nat (cursor_y e) < length (content e))%nat as Hlt
    by (unfold size in *; lia).
  cbn [content cursor_x set_cursor_x set_content].
  split; [by apply list_lookup_insert_eq|]. split; [done|].
  rewrite insert_backspace by done.
  cbn [content cursor_x cursor_y set_cursor_x set_content].
  destruct (Z.ltb_spec 0 (cursor_x e + 1)); [|lia].
  rewrite (to_size_t_int (cursor_y e)) by (done || lia).
  erewrite vec_get_lookup;
    [|lia|by apply list_lookup_insert_eq].
  simpl.
  replace (cursor_x e + 1 - 1) with (cursor_x e) by lia.
  rewrite to_int_id by (unfold is_int, INT_MIN, INT_MAX; lia).
  rewrite to_size_t_id by lia.
  rewrite str_erase_inserted by done. simpl.
  rewrite vec_set_ok by (unfold size in *; rewrite length_insert; lia).
  simpl. rewrite list_insert_insert_eq, list_insert_id by done.
  by destruct e.
Qed.

Lemma insert_then_backspace_restores_witness :
  (exists e1,
     handleInsertMode (chr "X") long_over_short = Ok e1 /\
     content e1 !! 0%nat = Some (lit "helloX") /\
     cursor_x e1 = 6 /\
     handleInsertMode 127 e1 = Ok long_over_short) /\
  (forall e0, cursor_x e0 = 0 -> handleInsertMode 127 e0 = Ok e0).
Proof.
  apply (insert_then_backspace_restores long_over_short (chr "X") 127).
  - vm_compute. split; discriminate.
  - right. reflexivity.
  - unfold valid_row, size. simpl. lia.
  - unfold is_int, INT_MIN, INT_MAX. simpl. lia.
  - unfold valid_col, size. simpl. lia.
  - unfold INT_MAX, size. simpl. lia.
Defined.

(** ** Splitting a line *)

Lemma insert_enter (e : Editor) :
  handleInsertMode (chr (String newline EmptyString)) e =
  (it ← below_cursor e;
   line ← vec_get (content e) (to_size_t (cursor_y e));
   rest ← substr line (to_size_t (cursor_x e)) npos;
   c1 ← vec_insert (content e) it rest;
   line1 ← vec_get c1 (to_size_t (cursor_y e));
   front ← substr line1 0 (to_size_t (cursor_x e));
   c2 ← vec_set c1 (to_size_t (cursor_y e)) front;
   Ok (set_cursor_x 0 (set_cursor_y (to_int (cursor_y e + 1)) (set_content c2 e)))).
Proof. reflexivity. Qed.

(** Replacing the element before an inserted one. *)
Lemma insert_before_inserted {A} (v : list A) (n : nat) (x y z : A) :
  v !! n = Some x ->
  <[n := y]> (take (S n) v ++ z :: drop (S n) v) =
  take n v ++ y :: z :: drop (S n) v.
Proof.
  intros Hx.
  assert (length (take n v) = n) as Hlen
    by (apply lookup_lt_Some in Hx; rewrite length_take; lia).
  rewrite (take_S_r _ _ _ Hx), <- !app_assoc.
  rewrite <- (Nat.add_0_r n) at 1. rewrite <- Hlen at 1.
  by rewrite insert_app_r.
Qed.

(** C6. In Insert mode, with the cursor on a row of the buffer and at a
    column [col] with [0 <= col <= length of the line], the newline key
    succeeds: the line of the cursor's row becomes its first [col]
    characters, a new line holding the remaining characters is inserted
    right after it, all other lines keep their order, the two lines
    concatenated are the original line, and the cursor goes to column 0 of
    the new line. *)
Theorem split_line_rejoins (e : Editor) :
  valid_row e -> valid_col e ->
  size (content e) <= INT_MAX -> size (current_line e) <= INT_MAX ->
  exists e',
    handleInsertMode (chr (String newline EmptyString)) e = Ok e' /\
    content e' =
      take (Z.to_nat (cursor_y e)) (content e) ++
      take (Z.to_nat (cursor_x e)) (current_line e) ::
      drop (Z.to_nat (cursor_x e)) (current_line e) ::
      drop (S (Z.to_nat (cursor_y e))) (content e) /\
    content e' !! Z.to_nat (cursor_y e) =
      Some (take (Z.to_nat (cursor_x e)) (current_line e)) /\
    content e' !! S (Z.to_nat (cursor_y e)) =
      Some (drop (Z.to_nat (cursor_x e)) (current_line e)) /\
    take (Z.to_nat (cursor_x e)) (current_line e) ++
      drop (Z.to_nat (cursor_x e)) (current_line e) = current_line e /\
    cursor_y e' = cursor_y e + 1 /\ cursor_x e' = 0.
Proof.
  intros Hrow Hcol Hfit Hline_fit.
  pose proof (current_line_lookup e Hrow) as Hline.
  pose proof (below_cursor_ok e Hrow) as Hbelow.
  unfold valid_row, valid_col, INT_MAX in *.
  assert (Z.to_nat (cursor_y e) < length (content e))%nat as Hlt
    by (unfold size in *; lia).
  assert (length (take (Z.to_nat (cursor_y e)) (content e)) =
          Z.to_nat (cursor_y e)) as Hlen by (rewrite length_take; lia).
  eexists. split.
  - rewrite insert_enter, Hbelow. simpl.
    rewrite !to_size_t_id by lia.
    rewrite (vec_get_lookup _ _ _ (proj1 Hrow) Hline). simpl.
    rewrite substr_tail by (unfold npos; lia). simpl.
    rewrite vec_insert_ok by lia. simpl.
    replace (Z.to_nat (cursor_y e + 1)) with (S (Z.to_nat (cursor_y e))) by lia.
    erewrite vec_get_lookup; [|lia|].
    2:{ rewrite lookup_insert_at by lia.
        destruct (decide _) as [_|?]; [exact Hline|lia]. }
    simpl. rewrite substr_front by lia. simpl.
    rewrite vec_set_ok by (rewrite size_insert_at; lia). simpl.
    rewrite (insert_before_inserted _ _ _ _ _ Hline).
    rewrite to_int_id by (unfold is_int, INT_MIN, INT_MAX; lia).
    reflexivity.
  - cbn [content cursor_x cursor_y set_cursor_x set_cursor_y set_content].
    split; [done|].
    split; [by rewrite lookup_app_r, Hlen, Nat.sub_diag by lia|].
    split.
    { rewrite lookup_app_r by lia.
      by replace (S (Z.to_nat (cursor_y e)) -
                  length (take (Z.to_nat (cursor_y e)) (content e)))%nat
        with 1%nat by lia. }
    split; [apply take_drop|done].
Qed.

Lemma split_line_rejoins_witness :
  exists e',
    handleInsertMode (chr (String newline EmptyString))
      (mkEditor "f" [lit "hello"; lit "hi"] (lit "") 2 0 0 0 INSERT) = Ok e' /\
    content e' = [lit "he"; lit "llo"; lit "hi"] /\
    content e' !! 0%nat = Some (lit "he") /\
    content e' !! 1%nat = Some (lit "llo") /\
    lit "he" ++ lit "llo" = lit "hello" /\
    cursor_y e' = 1 /\ cursor_x e' = 0.
Proof.
  apply (split_line_rejoins
           (mkEditor "f" [lit "hello"; lit "hi"] (lit "") 2 0 0 0 INSERT)).
  - unfold valid_row, size. simpl. lia.
  - unfold valid_col, size. simpl. lia.
  - unfold INT_MAX, size. simpl. lia.
  - unfold INT_MAX, size. simpl. lia.
Defined.

(** ** Reading and writing files *)

Lemma read_lines_step (s : std_string) (c : list std_string) :
  read_lines s c =
  match getline s with
  | Some (line, rest) => read_lines rest (c ++ [line])
  | None => c
  end.
Proof.
  rewrite read_lines_equation_1. unfold inspect.
  assert (forall o (H : getline s = o),
            read_lines_unfold_clause_1 s (exist _ o H) c =
            match o with
            | Some (line, rest) => read_lines rest (c ++ [line])
            | None => c
            end) as Hgen.
  { intros [[line rest]|] H; reflexivity. }
  apply Hgen.
Qed.

Lemma extract_line_app (l r : std_string) :
  newline ∉ l -> extract_line (l ++ newline :: r) = (l, r).
Proof.
  induction l as [|c l IH]; intros Hl; simpl.
  - reflexivity.
  - apply not_elem_of_cons in Hl as [Hc Hl].
    destruct (Ascii.eqb_spec c newline) as [->|_]; [done|].
    by rewrite IH.
Qed.

Lemma read_lines_nil (c : list std_string) : read_lines [] c = c.
Proof. by rewrite read_lines_step. Qed.

(** Reading back what [saveFile] wrote appends the saved lines. *)
Lemma read_lines_written (ls : list std_string) : forall c : list std_string,
  Forall (fun l => newline ∉ l) ls ->
  read_lines (written ls) c = c ++ ls.
Proof.
  induction ls as [|l ls IH]; intros c Hls.
  - by rewrite read_lines_nil, app_nil_r.
  - apply Forall_cons in Hls as [Hl Hls].
    rewrite read_lines_step.
    change (written (l :: ls)) with ((l ++ [newline]) ++ written ls).
    rewrite <- app_assoc. simpl.
    assert (getline (l ++ newline :: written ls) = Some (l, written ls)) as ->.
    { unfold getline. rewrite <- (extract_line_app l (written ls) Hl).
      by destruct l. }
    rewrite IH by done. by rewrite <- app_assoc.
Qed.

Lemma loadFile_missing (fs : filesystem) (e : Editor) :
  files fs !! filename e = None -> loadFile fs e = e.
Proof. unfold loadFile. by intros ->. Qed.

Lemma loadFile_present (fs : filesystem) (e : Editor) (bytes : std_string) :
  files fs !! filename e = Some bytes ->
  1 <= size (content (loadFile fs e)).
Proof.
  unfold loadFile. intros ->. cbn [content set_content].
  destruct (read_lines bytes (content e)); unfold size; simpl; lia.
Qed.

Lemma loadFile_no_lines (fs : filesystem) (name : string) :
  files fs !! name = Some [] ->
  content (loadFile fs (init name)) = [lit ""].
Proof.
  unfold loadFile. cbn [filename init]. intros ->.
  by rewrite read_lines_nil.
Qed.

(** C8. When the buffer has at least one line, no line contains a newline
    character and the file can be opened for writing, [saveFile] leaves in
    the file every line followed by a newline, the last one included, in
    order, and a fresh editor that loads the same path afterwards holds the
    same sequence of lines. *)
Theorem save_then_load_roundtrip (fs : filesystem) (e : Editor) :
  1 <= size (content e) ->
  Forall (fun l => newline ∉ l) (content e) ->
  filename e ∉ unwritable fs ->
  files (saveFile fs e) !! filename e =
    Some (concat (map (fun l => l ++ [newline]) (content e))) /\
  content (loadFile (saveFile fs e) (init (filename e))) = content e.
Proof.
  intros Hlen Hnl Hw.
  assert (files (saveFile fs e) !! filename e = Some (written (content e)))
    as Hsaved.
  { unfold saveFile. destruct (decide _) as [?|_]; [done|].
    apply lookup_insert_eq. }
  split; [exact Hsaved|].
  unfold loadFile. cbn [filename init content set_content].
  rewrite Hsaved, read_lines_written by done. simpl.
  destruct (content e); [|done].
  unfold size in Hlen. simpl in Hlen. lia.
Qed.

Lemma save_then_load_roundtrip_witness :
  let e := mkEditor "notes.txt" [lit "hi"; lit ""; lit "there"] (lit "") 0 0 0 0 NORMAL in
  files (saveFile (mkFs ∅ ∅) e) !! "notes.txt" =
    Some (lit "hi" ++ [newline] ++ [newline] ++ lit "there" ++ [newline]) /\
  content (loadFile (saveFile (mkFs ∅ ∅) e) (init "notes.txt")) =
    [lit "hi"; lit ""; lit "there"].
Proof.
  apply (save_then_load_roundtrip (mkFs ∅ ∅)
           (mkEditor "notes.txt" [lit "hi"; lit ""; lit "there"] (lit "")
                     0 0 0 0 NORMAL)).
  - unfold size. simpl. lia.
  - by apply (bool_decide_unpack _).
  - apply not_elem_of_empty.
Defined.

(** ** Loading a file that cannot be opened *)

(** C1. When the file cannot be opened, [loadFile] leaves the buffer of a
    fresh editor with no line at all: the statement that adds the empty
    line is inside the branch taken only when the file is open. *)
Theorem load_unopenable_file_gives_no_line (fs : filesystem) (name : string) :
  files fs !! name = None ->
  content (loadFile fs (init name)) = [] /\
  size (content (loadFile fs (init name))) = 0.
Proof.
  intros Hnone. by rewrite loadFile_missing.
Qed.

Lemma load_unopenable_file_gives_no_line_witness :
  content (loadFile (mkFs ∅ ∅) (init "new.txt")) = [] /\
  size (content (loadFile (mkFs ∅ ∅) (init "new.txt"))) = 0.
Proof.
  apply (load_unopenable_file_gives_no_line (mkFs ∅ ∅) "new.txt").
  reflexivity.
Defined.

(** Scenario A of the specification, on a standard terminal: with no file
    to open, the first typed character indexes an empty vector. *)
Example scenario_A :
  let t := mkTerminal 24 80 in
  main (mkFs ∅ ∅) t "new.txt" [mkInput (chr "i") t; mkInput (chr "h") t] = UB.
Proof. reflexivity. Qed.

(** ** Scrolling *)

(** When the cursor is at or past the last text row (or column) of the
    window, the new offset puts it on the window's very last row (column). *)
Lemma scroll_forward (cursor offset extent : Z) :
  0 <= offset -> cursor < INT_MAX ->
  1 <= extent -> offset + extent - 1 <= cursor ->
  scroll cursor offset extent = cursor - extent + 1.
Proof.
  unfold INT_MAX, scroll. intros Ho Hc Hext Hfwd.
  destruct (Z.ltb_spec cursor offset); [lia|].
  rewrite (to_int_id (offset + extent)), (to_int_id (cursor - extent))
    by (unfold is_int, INT_MIN, INT_MAX; lia).
  rewrite !to_int_id by (unfold is_int, INT_MIN, INT_MAX; lia).
  by destruct (Z.leb_spec (offset + extent - 1) cursor); [|lia].
Qed.

Lemma scroll_forward_not_in_view (cursor offset extent : Z) :
  0 <= offset -> cursor < INT_MAX ->
  1 <= extent -> offset + extent - 1 <= cursor ->
  ~ in_view cursor (scroll cursor offset extent) extent.
Proof.
  intros Ho Hc Hext Hfwd. rewrite scroll_forward by done.
  unfold in_view. lia.
Qed.

(** Without a forward scroll the invariant holds, on a window of at least
    two rows (columns). *)
Lemma scroll_in_view (cursor offset extent : Z) :
  is_int cursor -> is_int offset -> is_int (offset + extent) ->
  2 <= extent -> cursor < offset + extent - 1 ->
  in_view cursor (scroll cursor offset extent) extent.
Proof.
  unfold scroll, in_view. intros Hc Ho Hs Hext Hfwd.
  destruct (Z.ltb_spec cursor offset); [lia|].
  rewrite (to_int_id (offset + extent)) by done.
  rewrite to_int_id by (unfold is_int, INT_MIN, INT_MAX in *; lia).
  destruct (Z.leb_spec (offset + extent - 1) cursor); lia.
Qed.

(** In every case the cursor stays inside the window. *)
Lemma scroll_on_screen (cursor offset extent : Z) :
  is_int cursor -> 0 <= offset -> is_int (offset + extent) ->
  cursor < INT_MAX -> 1 <= extent ->
  scroll cursor offset extent <= cursor <= scroll cursor offset extent + extent - 1.
Proof.
  unfold scroll. intros Hc Ho Hs Hmax Hext.
  destruct (Z.ltb_spec cursor offset); [lia|].
  rewrite (to_int_id (offset + extent)) by done.
  unfold is_int, INT_MIN, INT_MAX in *.
  rewrite (to_int_id (offset + extent - 1))
    by (unfold is_int, INT_MIN, INT_MAX; lia).
  destruct (Z.leb_spec (offset + extent - 1) cursor); [|lia].
  rewrite (to_int_id (cursor - extent))
    by (unfold is_int, INT_MIN, INT_MAX; lia).
  rewrite to_int_id by (unfold is_int, INT_MIN, INT_MAX; lia).
  lia.
Qed.

(** C3. On a 24 x 80 terminal, moving down 23 times in a file of thirty
    lines leaves the cursor on row 23 with row offset 0 after the redraw,
    which is above [offset + 24 - 2]; moving right 79 times on a line of a
    hundred characters leaves the cursor on column 79 with column offset 0,
    which is above [offset + 80 - 2].  The viewport invariant does not hold
    after these recomputations. *)
Theorem viewport_invariant_broken_by_forward_scroll :
  (exists e,
     main thirty_lines vt100 "long.txt" (replicate 23 (mkInput KEY_DOWN vt100))
       = Ok (Waiting e) /\
     cursor_y e = 23 /\ offset_y e = 0 /\
     ~ in_view (cursor_y e) (offset_y e) (max_y vt100)) /\
  (exists e,
     main wide_line vt100 "wide.txt" (replicate 79 (mkInput KEY_RIGHT vt100))
       = Ok (Waiting e) /\
     cursor_x e = 79 /\ offset_x e = 0 /\
     ~ in_view (cursor_x e) (offset_x e) (max_x vt100)).
Proof.
  split; eexists; (split; [vm_compute; reflexivity|]);
    cbn [cursor_x cursor_y offset_x offset_y max_x max_y vt100];
    unfold in_view; lia.
Qed.

(** ** Where the characters of the buffer come from *)

Lemma bind_Ok {A B} (m : outcome A) (f : A -> outcome B) (b : B) :
  m ≫= f = Ok b -> exists a, m = Ok a /\ f a = Ok b.
Proof. destruct m; try discriminate. intros H. by eexists. Qed.

(** Splits every successful sequence of steps in the context. *)
Ltac inv_ok :=
  repeat match goal with
         | H : _ ≫= _ = Ok _ |- _ =>
             apply bind_Ok in H as (? & ? & H)
         | H : Ok _ = Ok _ |- _ => injection H as H
         | H : OutOfRange = Ok _ |- _ => discriminate H
         | H : UB = Ok _ |- _ => discriminate H
         | H : (if ?b then _ else _) = Ok _ |- _ => destruct b eqn:?
         end.

Section Provenance.
Context {A : Type}.
Implicit Types (v : list A) (x y : A).

Lemma vec_get_elem v i x : vec_get v i = Ok x -> x ∈ v.
Proof.
  unfold vec_get. destruct (v !! Z.to_nat i) eqn:Hl; [|discriminate].
  destruct (0 <=? i); [|discriminate]. intros [= <-].
  by eapply list_elem_of_lookup_2.
Qed.

Lemma vec_set_elem v i x v' y :
  vec_set v i x = Ok v' -> y ∈ v' -> y ∈ v \/ y = x.
Proof.
  unfold vec_set. destruct (_ && _); [|discriminate]. intros [= <-] Hy.
  apply list_elem_of_lookup in Hy as [j Hj].
  apply list_lookup_insert_Some in Hj as [(_ & -> & _) | (_ & Hj)].
  - by right.
  - left. by eapply list_elem_of_lookup_2.
Qed.

Lemma vec_insert_elem v it x v' y :
  vec_insert v it x = Ok v' -> y ∈ v' -> y ∈ v \/ y = x.
Proof.
  unfold vec_insert. destruct (_ && _); [|discriminate]. intros [= <-] Hy.
  apply elem_of_app in Hy as [Hy|Hy].
  - left. by eapply subseteq_take.
  - apply elem_of_cons in Hy as [->|Hy]; [by right|].
    left. by eapply subseteq_drop.
Qed.

Lemma vec_erase_elem v it v' y : vec_erase v it = Ok v' -> y ∈ v' -> y ∈ v.
Proof.
  unfold vec_erase. destruct (_ && _); [|discriminate]. intros [= <-] Hy.
  by eapply list_subseteq_delete.
Qed.

End Provenance.

Lemma str_insert_elem (s s' : std_string) (pos : Z) (c a : ascii) :
  str_insert s pos c = Ok s' -> a ∈ s' -> a ∈ s \/ a = c.
Proof.
  unfold str_insert. destruct (_ <? _); [discriminate|]. intros [= <-] Ha.
  apply elem_of_app in Ha as [Ha|Ha].
  - left. by eapply subseteq_take.
  - apply elem_of_cons in Ha as [->|Ha]; [by right|].
    left. by eapply subseteq_drop.
Qed.

Lemma str_erase_elem (s s' : std_string) (pos n : Z) (a : ascii) :
  str_erase s pos n = Ok s' -> a ∈ s' -> a ∈ s.
Proof.
  unfold str_erase. destruct (_ <? _); [discriminate|]. intros [= <-] Ha.
  apply elem_of_app in Ha as [Ha|Ha].
  - by eapply subseteq_take.
  - by eapply subseteq_drop.
Qed.

Lemma substr_elem (s s' : std_string) (pos n : Z) (a : ascii) :
  substr s pos n = Ok s' -> a ∈ s' -> a ∈ s.
Proof.
  unfold substr. destruct (_ <? _); [discriminate|]. intros [= <-] Ha.
  eapply subseteq_drop, subseteq_take, Ha.
Qed.

(** Normal mode never brings in a character. *)
Lemma handleNormalMode_occurs (ch : Z) (e e' : Editor) (a : ascii) :
  handleNormalMode ch e = Ok e' -> occurs a e' -> occurs a e.
Proof.
  unfold handleNormalMode, below_cursor, occurs. intros H.
  repeat match type of H with
         | (if ?b then _ else _) = Ok _ => destruct b
         end;
    inv_ok; subst; simpl;
    repeat match goal with
           | |- context [content (if ?b then _ else _)] => destruct b; simpl
           | |- context [copy_buffer (if ?b then _ else _)] => destruct b; simpl
           end;
    try done.
  - (* d, several lines, cursor on the last one *)
    intros [(l & Hl & Ha)|Ha]; [left|by right].
    exists l. eauto using vec_erase_elem.
  - (* d, several lines *)
    intros [(l & Hl & Ha)|Ha]; [left|by right].
    exists l. eauto using vec_erase_elem.
  - (* d, one line *)
    intros [(l & Hl & Ha)|Ha]; [|by right].
    match goal with
    | Hs : vec_set _ _ _ = Ok _ |- _ =>
        destruct (vec_set_elem _ _ _ _ _ Hs Hl) as [Hl'|Heq]
    end.
    + left. by exists l.
    + subst l. inversion Ha.
  - (* y *)
    intros [Hl|Ha]; [by left|]. left. eauto using vec_get_elem.
  - (* p *)
    intros [(l & Hl & Ha)|Ha]; [|by right].
    match goal with
    | Hi : vec_insert _ _ _ = Ok _ |- _ =>
        destruct (vec_insert_elem _ _ _ _ _ Hi Hl) as [Hl'|Heq]
    end.
    + left. by exists l.
    + subst l. by right.
  - (* o *)
    intros [(l & Hl & Ha)|Ha]; [|by right].
    match goal with
    | Hi : vec_insert _ _ _ = Ok _ |- _ =>
        destruct (vec_insert_elem _ _ _ _ _ Hi Hl) as [Hl'|Heq]
    end.
    + left. by exists l.
    + subst l. inversion Ha.
Qed.

(** Insert mode brings in at most the printable character that was typed. *)
Lemma handleInsertMode_occurs (ch : Z) (e e' : Editor) (a : ascii) :
  handleInsertMode ch e = Ok e' -> occurs a e' ->
  occurs a e \/ (32 <= ch <= 126 /\ a = to_char ch).
Proof.
  unfold handleInsertMode, below_cursor, occurs. intros H.
  repeat match type of H with
         | (if ?b then _ else _) = Ok _ => destruct b eqn:?
         end;
    inv_ok; subst; simpl; try (intros Ho; by left).
  - (* backspace *)
    intros [(l & Hl & Ha)|Ha]; [|left; by right].
    match goal with
    | Hs : vec_set _ _ _ = Ok _ |- _ =>
        destruct (vec_set_elem _ _ _ _ _ Hs Hl) as [Hl'|Heq]
    end.
    + left. left. by exists l.
    + subst l. left. left. eexists. split; [by eapply vec_get_elem|].
      by eapply str_erase_elem.
  - (* newline *)
    intros [(l & Hl & Ha)|Ha]; [|left; by right].
    left. left.
    lazymatch goal with
    | Hins : vec_insert (content e) _ _ = Ok ?c1,
      Hset : vec_set ?c1 _ _ = Ok _,
      Hget : vec_get ?c1 _ = Ok ?line1 |- _ =>
        assert (forall l0, l0 ∈ c1 ->
                  exists l1, l1 ∈ content e /\ forall c, c ∈ l0 -> c ∈ l1)
          as Hmid;
        [ intros l0 Hl0;
          destruct (vec_insert_elem _ _ _ _ _ Hins Hl0) as [Hl'|Heq];
          [ by exists l0
          | subst l0; eexists; split; [by eapply vec_get_elem|];
            intros c Hc; by eapply substr_elem ]
        | destruct (vec_set_elem _ _ _ _ _ Hset Hl) as [Hl'|Heq];
          [ destruct (Hmid l Hl') as (l1 & Hl1 & Hsub); exists l1; eauto
          | subst l;
            destruct (Hmid line1 (vec_get_elem _ _ _ Hget)) as (l1 & Hl1 & Hsub);
            exists l1; split; [done|]; apply Hsub; by eapply substr_elem ] ]
    end.
  - (* printable *)
    intros [(l & Hl & Ha)|Ha]; [|left; by right].
    lazymatch goal with
    | Hs : vec_set _ _ _ = Ok _, Hi : str_insert _ _ _ = Ok _,
      Hr : (32 <=? ch) && (ch <=? 126) = true |- _ =>
        apply andb_true_iff in Hr as [Hlo%Z.leb_le Hhi%Z.leb_le];
        destruct (vec_set_elem _ _ _ _ _ Hs Hl) as [Hl'|Heq];
        [ left; left; by exists l
        | subst l;
          destruct (str_insert_elem _ _ _ _ _ Hi Ha) as [Ha'|Heq];
          [ left; left; eexists; split; [by eapply vec_get_elem|done]
          | right; split; [lia|done] ] ]
    end.
Qed.

(** [draw] touches the scroll offsets only. *)
Lemma draw_frame (t : Terminal) (e e' : Editor) :
  draw t e = Ok e' ->
  content e' = content e /\ copy_buffer e' = copy_buffer e /\
  cursor_x e' = cursor_x e /\ cursor_y e' = cursor_y e /\ mode e' = mode e.
Proof. unfold draw. intros H. inv_ok. by subst. Qed.

Lemma draw_occurs (t : Terminal) (e e' : Editor) (a : ascii) :
  draw t e = Ok e' -> occurs a e' -> occurs a e.
Proof.
  intros H. apply draw_frame in H as (Hc & Hb & _).
  unfold occurs. by rewrite Hc, Hb.
Qed.

Lemma dispatch_occurs (ch : Z) (e e' : Editor) (a : ascii) :
  dispatch ch e = Ok e' -> occurs a e' ->
  occurs a e \/ (32 <= ch <= 126 /\ a = to_char ch).
Proof.
  unfold dispatch. destruct (mode e).
  - left. by eapply handleNormalMode_occurs.
  - apply handleInsertMode_occurs.
Qed.

(** Only the key [q] converts to the character [q]. *)
Lemma to_char_q (ch : Z) :
  32 <= ch <= 126 -> to_char ch = "q"%char -> ch = chr "q".
Proof.
  unfold to_char. intros Hch Hq.
  rewrite Z.mod_small in Hq by lia.
  apply (f_equal nat_of_ascii) in Hq.
  rewrite nat_ascii_embedding in Hq by lia.
  change (nat_of_ascii "q") with 113%nat in Hq.
  change (chr "q") with 113. lia.
Qed.

(** The loop stops at the first [q]; what follows is never read. *)
Lemma run_quit (fs : filesystem) (e : Editor) (k : input) (rest : list input) :
  key k = chr "q" -> run fs (k :: rest) e = Ok (Finished e (saveFile fs e)).
Proof. intros Hq. cbn [run]. by rewrite Hq. Qed.

Lemma run_step (fs : filesystem) (e : Editor) (k : input) (rest : list input) :
  key k <> chr "q" ->
  run fs (k :: rest) e =
  (e1 ← dispatch (key k) e; e2 ← draw (screen k) e1; run fs rest e2).
Proof.
  intros Hq. cbn [run]. by destruct (Z.eqb_spec (key k) (chr "q")).
Qed.

(** Without a [q] the loop never returns, so nothing is saved. *)
Lemma run_without_quit (fs : filesystem) (keys : list input) :
  forall (e : Editor) (s : session),
  Forall (fun k => key k <> chr "q") keys ->
  run fs keys e = Ok s -> exists e', s = Waiting e'.
Proof.
  induction keys as [|k keys IH]; intros e s Hkeys Hrun.
  - injection Hrun as <-. by exists e.
  - apply Forall_cons in Hkeys as [Hk Hkeys].
    rewrite run_step in Hrun by done. inv_ok. by eapply IH.
Qed.

(** With a first [q] after the keys [pre], the loop returns having saved
    the state those keys lead to. *)
Lemma run_until_quit (fs : filesystem) (pre : list input) :
  forall (e : Editor) (k : input) (post : list input),
  Forall (fun k => key k <> chr "q") pre -> key k = chr "q" ->
  run fs (pre ++ k :: post) e =
  (s ← run fs pre e;
   Ok (Finished (editor_of s) (saveFile fs (editor_of s)))).
Proof.
  induction pre as [|k0 pre IH]; intros e k post Hpre Hq.
  - by rewrite app_nil_l, run_quit.
  - apply Forall_cons in Hpre as [Hk0 Hpre].
    rewrite <- app_comm_cons, !run_step by done.
    destruct (dispatch (key k0) e) as [e1| |]; try done. simpl.
    destruct (draw (screen k0) e1) as [e2| |]; try done. simpl.
    by apply IH.
Qed.

(** Whatever the keys, a [q] in the buffer or register at the end was
    there at the start. *)
Lemma run_never_types_q (fs : filesystem) (keys : list input) :
  forall (e : Editor) (s : session),
  run fs keys e = Ok s ->
  occurs "q"%char (editor_of s) -> occurs "q"%char e.
Proof.
  induction keys as [|k keys IH]; intros e s Hrun Hocc.
  - by injection Hrun as <-.
  - destruct (Z.eq_dec (key k) (chr "q")) as [Hq|Hq].
    + rewrite run_quit in Hrun by done. by injection Hrun as <-.
    + rewrite run_step in Hrun by done.
      apply bind_Ok in Hrun as (e1 & Hdisp & Hrun).
      apply bind_Ok in Hrun as (e2 & Hdraw & Hrun).
      specialize (IH e2 s Hrun Hocc).
      apply (draw_occurs _ _ _ _ Hdraw) in IH.
      destruct (dispatch_occurs _ _ _ _ Hdisp IH) as [?|[Hch Hc]]; [done|].
      exfalso. apply Hq. by apply to_char_q.
Qed.

(** Typed in Insert mode outside the loop, the same key would be inserted. *)
Example handleInsertMode_would_insert_q :
  handleInsertMode (chr "q") (mkEditor "f" [lit "a"] (lit "") 1 0 0 0 INSERT) =
  Ok (mkEditor "f" [lit "aq"] (lit "") 2 0 0 0 INSERT).
Proof. reflexivity. Qed.

(** C4. Whatever the mode, a [q] read by the loop ends it at once, without
    dispatch: the editor state is the one before the key, [saveFile] is
    applied to it, and the keys after it are never read.  A [q] preceded by
    other keys ends the loop with the state those keys produced, saved;
    keys without a [q] never end the loop.  For every key sequence, a
    character [q] found in the buffer (or the register) afterwards was
    already there before: the loop never inserts one. *)
Theorem quit_intercepted_before_dispatch :
  (forall fs e k rest, key k = chr "q" ->
     run fs (k :: rest) e = Ok (Finished e (saveFile fs e))) /\
  (forall fs pre e k post,
     Forall (fun k => key k <> chr "q") pre -> key k = chr "q" ->
     run fs (pre ++ k :: post) e =
     (s ← run fs pre e;
      Ok (Finished (editor_of s) (saveFile fs (editor_of s))))) /\
  (forall fs keys e s,
     Forall (fun k => key k <> chr "q") keys ->
     run fs keys e = Ok s -> exists e', s = Waiting e') /\
  (forall fs keys e s,
     run fs keys e = Ok s ->
     occurs "q"%char (editor_of s) -> occurs "q"%char e).
Proof.
  split; [|split; [|split]].
  - intros. by apply run_quit.
  - intros. by apply run_until_quit.
  - intros. by eapply run_without_quit.
  - intros. by eapply run_never_types_q.
Qed.

Lemma quit_intercepted_before_dispatch_witness :
  let e := mkEditor "f" [lit "a"] (lit "") 1 0 0 0 INSERT in
  run (mkFs ∅ ∅) [mkInput (chr "q") vt100; mkInput (chr "z") vt100] e =
    Ok (Finished e (saveFile (mkFs ∅ ∅) e)) /\
  (forall s,
     run (mkFs ∅ ∅)
         [mkInput (chr "z") vt100; mkInput (chr "q") vt100;
          mkInput (chr "q") vt100] e = Ok s ->
     occurs "q"%char (editor_of s) -> occurs "q"%char e).
Proof.
  split.
  - apply (proj1 quit_intercepted_before_dispatch
             (mkFs ∅ ∅) (mkEditor "f" [lit "a"] (lit "") 1 0 0 0 INSERT)
             (mkInput (chr "q") vt100) [mkInput (chr "z") vt100]).
    reflexivity.
  - intros s.
    apply (proj2 (proj2 (proj2 quit_intercepted_before_dispatch))).
Defined.

(** * Further properties *)

(** ** Horizontal movement *)

Lemma normal_left (e : Editor) :
  handleNormalMode KEY_LEFT e =
  Ok (if 0 <? cursor_x e then set_cursor_x (to_int (cursor_x e - 1)) e else e).
Proof. reflexivity. Qed.

Lemma normal_right (e : Editor) :
  handleNormalMode KEY_RIGHT e =
  (line ← vec_get (content e) (to_size_t (cursor_y e));
   Ok (if to_size_t (cursor_x e) <? size line
       then set_cursor_x (to_int (cursor_x e + 1)) e else e)).
Proof. reflexivity. Qed.

Lemma set_cursor_x_same (e : Editor) : set_cursor_x (cursor_x e) e = e.
Proof. by destruct e. Qed.

Lemma set_cursor_y_same (e : Editor) : set_cursor_y (cursor_y e) e = e.
Proof. by destruct e. Qed.

(** X1. In Normal mode, with the cursor on a row of the buffer and at a
    column that is not negative, the left key moves the column to
    [max 0 (col - 1)] and the right key moves it one to the right only while
    it is before the end of the line; nothing else changes, and a column
    that was an insertion point of the line still is one. *)
Theorem horizontal_move_clamps_col (e : Editor) (ch : Z) :
  ch = KEY_LEFT \/ ch = KEY_RIGHT ->
  valid_row e -> is_int (cursor_y e) ->
  0 <= cursor_x e -> is_int (cursor_x e) ->
  size (current_line e) <= INT_MAX ->
  exists e', handleNormalMode ch e = Ok e' /\
    cursor_x e' =
      (if ch =? KEY_LEFT then Z.max 0 (cursor_x e - 1)
       else if cursor_x e <? size (current_line e) then cursor_x e + 1
            else cursor_x e) /\
    e' = set_cursor_x (cursor_x e') e /\
    (valid_col e -> valid_col e').
Proof.
  intros Hch Hrow Hinty Hx Hintx Hfit.
  pose proof (current_line_lookup e Hrow) as Hline.
  unfold valid_row, is_int, INT_MIN, INT_MAX in *.
  destruct Hch as [-> | ->].
  - rewrite normal_left. eexists. split; [done|].
    change (KEY_LEFT =? KEY_LEFT) with true. cbv iota.
    destruct (Z.ltb_spec 0 (cursor_x e)).
    + rewrite to_int_id by (unfold is_int, INT_MIN, INT_MAX; lia).
      cbn [cursor_x set_cursor_x].
      split; [lia|]. split; [done|].
      unfold valid_col, current_line in *. simpl. lia.
    + split; [lia|]. split; [by rewrite set_cursor_x_same|done].
  - rewrite normal_right.
    rewrite (to_size_t_id (cursor_y e)), (to_size_t_id (cursor_x e)) by lia.
    rewrite (vec_get_lookup _ _ _ (proj1 Hrow) Hline). simpl.
    eexists. split; [done|].
    destruct (Z.ltb_spec (cursor_x e) (size (current_line e))).
    + rewrite to_int_id by (unfold is_int, INT_MIN, INT_MAX; lia).
      cbn [cursor_x set_cursor_x].
      split; [done|]. split; [done|].
      unfold valid_col, current_line in *. simpl. lia.
    + split; [done|]. split; [by rewrite set_cursor_x_same|done].
Qed.

Lemma horizontal_move_clamps_col_witness :
  exists e', handleNormalMode KEY_RIGHT long_over_short = Ok e' /\
    cursor_x e' = 5 /\
    e' = set_cursor_x (cursor_x e') long_over_short /\
    (valid_col long_over_short -> valid_col e').
Proof.
  apply (horizontal_move_clamps_col long_over_short KEY_RIGHT).
  - right. reflexivity.
  - unfold valid_row, size. simpl. lia.
  - unfold is_int, INT_MIN, INT_MAX. simpl. lia.
  - simpl. lia.
  - unfold is_int, INT_MIN, INT_MAX. simpl. lia.
  - unfold INT_MAX, size. simpl. lia.
Defined.

(** ** Opening a line and where delete-line leaves the cursor *)

Lemma normal_open (e : Editor) :
  valid_row e -> cursor_y e < INT_MAX ->
  handleNormalMode (chr "o") e =
  Ok (set_cursor_x 0
        (set_cursor_y (cursor_y e + 1)
           (set_content (take (Z.to_nat (cursor_y e + 1)) (content e) ++
                         [] :: drop (Z.to_nat (cursor_y e + 1)) (content e)) e))).
Proof.
  intros Hrow Hint.
  change (handleNormalMode (chr "o") e) with
    (it ← below_cursor e;
     c ← vec_insert (content e) it (lit "");
     Ok (set_cursor_x 0
           (set_cursor_y (to_int (cursor_y e + 1)) (set_content c e)))).
  rewrite below_cursor_ok by done. simpl.
  unfold valid_row in Hrow.
  rewrite vec_insert_ok by lia. simpl.
  rewrite to_int_id; [done|].
  unfold is_int, INT_MIN, INT_MAX in *. lia.
Qed.

(** X2. In Normal mode, with the cursor on a row of the buffer, the
    open-line key inserts an empty line right below the cursor's row (the
    lines up to the row stay, the later ones move one index down), puts the
    cursor at column 0 of the new line, and leaves the mode and the register
    as they were: the editor stays in the mode it was in. *)
Theorem open_line_inserts_empty_line_below (e : Editor) :
  valid_row e -> size (content e) <= INT_MAX ->
  exists e', handleNormalMode (chr "o") e = Ok e' /\
    content e' !! Z.to_nat (cursor_y e + 1) = Some [] /\
    (forall i : nat, (i <= Z.to_nat (cursor_y e))%nat ->
       content e' !! i = content e !! i) /\
    (forall i : nat, (Z.to_nat (cursor_y e) < i)%nat ->
       content e' !! S i = content e !! i) /\
    size (content e') = size (content e) + 1 /\
    cursor_y e' = cursor_y e + 1 /\ cursor_x e' = 0 /\
    mode e' = mode e /\ copy_buffer e' = copy_buffer e /\
    valid_row e' /\ valid_col e'.
Proof.
  intros Hrow Hfit.
  assert (cursor_y e < INT_MAX) as Hmax by (unfold valid_row in *; lia).
  rewrite normal_open by done. eexists. split; [done|].
  unfold valid_row in Hrow.
  assert (Z.to_nat (cursor_y e + 1) <= length (content e))%nat as Hn
    by (unfold size in *; lia).
  assert (forall i : nat,
            (take (Z.to_nat (cursor_y e + 1)) (content e) ++
             [] :: drop (Z.to_nat (cursor_y e + 1)) (content e)) !! i =
            if decide (i < Z.to_nat (cursor_y e + 1))%nat then content e !! i
            else if decide (i = Z.to_nat (cursor_y e + 1)) then Some []
                 else content e !! (i - 1)%nat) as Hlook
    by (intros i; by apply lookup_insert_at).
  unfold valid_row, valid_col, current_line.
  cbn [content copy_buffer cursor_x cursor_y mode
       set_cursor_x set_cursor_y set_content].
  rewrite size_insert_at.
  repeat split; try done; try lia.
  - rewrite Hlook. destruct (decide _) as [?|_]; [lia|]. by destruct (decide _).
  - intros i Hi. rewrite Hlook. destruct (decide _) as [_|?]; [done|lia].
  - intros i Hi. rewrite Hlook.
    destruct (decide _) as [?|_]; [lia|].
    destruct (decide _) as [?|_]; [lia|]. f_equal. lia.
  - rewrite Hlook. destruct (decide _) as [?|_]; [lia|].
    destruct (decide _) as [_|?]; [|done]. simpl. unfold size. simpl. lia.
Qed.

Lemma open_line_inserts_empty_line_below_witness :
  exists e', handleNormalMode (chr "o") long_over_short = Ok e' /\
    content e' !! 1%nat = Some [] /\
    (forall i : nat, (i <= 0)%nat ->
       content e' !! i = content long_over_short !! i) /\
    (forall i : nat, (0 < i)%nat ->
       content e' !! S i = content long_over_short !! i) /\
    size (content e') = 3 /\
    cursor_y e' = 1 /\ cursor_x e' = 0 /\
    mode e' = NORMAL /\ copy_buffer e' = [] /\
    valid_row e' /\ valid_col e'.
Proof.
  apply (open_line_inserts_empty_line_below long_over_short);
    unfold valid_row, INT_MAX, size; simpl; lia.
Defined.

(** X3. In Normal mode, with the cursor on a row of the buffer, delete-line
    leaves the cursor at column 0, on the same row number unless the last
    line was the one deleted, in which case it moves up one row; the cursor
    is then on the line that followed the deleted one (or on the new last
    line), a valid position.  Mode and register are unchanged. *)
Theorem delete_line_cursor (e : Editor) :
  1 < size (content e) -> valid_row e -> is_int (cursor_y e) ->
  exists e', handleNormalMode (chr "d") e = Ok e' /\
    cursor_x e' = 0 /\
    cursor_y e' = Z.min (cursor_y e) (size (content e) - 2) /\
    content e' !! Z.to_nat (cursor_y e') =
      (if cursor_y e + 1 <? size (content e)
       then content e !! Z.to_nat (cursor_y e + 1)
       else content e !! Z.to_nat (cursor_y e - 1)) /\
    valid_row e' /\ valid_col e' /\
    mode e' = mode e /\ copy_buffer e' = copy_buffer e.
Proof.
  intros Hlen Hrow Hint.
  rewrite normal_delete_many by done. eexists. split; [done|].
  unfold valid_row in Hrow. cbv zeta.
  assert (Z.to_nat (cursor_y e) < length (content e))%nat as Hlt
    by (unfold size in *; lia).
  rewrite size_delete by done.
  unfold valid_row, valid_col, current_line.
  destruct (Z.leb_spec (size (content e) - 1) (cursor_y e)) as [Hlast|Hmid];
    cbn [content copy_buffer cursor_x cursor_y mode
         set_cursor_x set_cursor_y set_content];
    rewrite size_delete by done.
  - destruct (Z.ltb_spec (cursor_y e + 1) (size (content e))); [lia|].
    rewrite list_lookup_delete_lt by lia.
    repeat split; try done; try lia.
    pose proof (size_nonneg (default [] (content e !! Z.to_nat (cursor_y e - 1)))).
    lia.
  - destruct (Z.ltb_spec (cursor_y e + 1) (size (content e))); [|lia].
    rewrite list_lookup_delete_ge by lia.
    replace (S (Z.to_nat (cursor_y e))) with (Z.to_nat (cursor_y e + 1)) by lia.
    repeat split; try done; try lia.
    pose proof (size_nonneg (default [] (content e !! Z.to_nat (cursor_y e + 1)))).
    lia.
Qed.

Lemma delete_line_cursor_witness :
  exists e', handleNormalMode (chr "d") scenario_B = Ok e' /\
    cursor_x e' = 0 /\
    cursor_y e' = 0 /\
    content e' !! Z.to_nat (cursor_y e') = Some (lit "def") /\
    valid_row e' /\ valid_col e' /\
    mode e' = NORMAL /\ copy_buffer e' = [].
Proof.
  apply (delete_line_cursor scenario_B);
    unfold valid_row, is_int, INT_MIN, INT_MAX, size; simpl; lia.
Defined.

(** ** What every Normal-mode key keeps *)

Lemma handleNormalMode_other (ch : Z) (e : Editor) :
  ch <> KEY_UP -> ch <> KEY_DOWN -> ch <> KEY_LEFT -> ch <> KEY_RIGHT ->
  ch <> chr "i" -> ch <> chr "d" -> ch <> chr "y" -> ch <> chr "p" ->
  ch <> chr "o" ->
  handleNormalMode ch e = Ok e.
Proof.
  intros. unfold handleNormalMode.
  repeat match goal with
         | |- context [ch =? ?k] => destruct (Z.eqb_spec ch k); [congruence|]
         end.
  reflexivity.
Qed.

Lemma valid_col_at_zero (e : Editor) : cursor_x e = 0 -> valid_col e.
Proof.
  unfold valid_col. intros ->.
  pose proof (size_nonneg (current_line e)). lia.
Qed.

(** One Normal-mode key from a cursor on a row of the buffer. *)
Lemma normal_mode_step (e : Editor) (ch : Z) :
  valid_row e -> size (content e) <= INT_MAX ->
  exists e', handleNormalMode ch e = Ok e' /\
    valid_row e' /\ 1 <= size (content e') /\
    (valid_col e -> size (current_line e) <= INT_MAX ->
     ch <> KEY_UP -> ch <> KEY_DOWN -> ch <> chr "p" -> valid_col e').
Proof.
  intros Hrow Hfit.
  assert (1 <= size (content e)) as Hlen by (unfold valid_row in *; lia).
  assert (is_int (cursor_y e) /\ cursor_y e < INT_MAX) as [Hint Hmax]
    by (unfold valid_row, is_int, INT_MIN, INT_MAX in *; lia).
  pose proof (current_line_lookup e Hrow) as Hline.
  destruct (decide (ch = KEY_UP)) as [->|Hup].
  { rewrite normal_up_valid by done. eexists. split; [done|].
    unfold valid_row in *. simpl. repeat split; try done; lia. }
  destruct (decide (ch = KEY_DOWN)) as [->|Hdown].
  { rewrite normal_down_valid by done. eexists. split; [done|].
    unfold valid_row in *. simpl. repeat split; try done; lia. }
  destruct (decide (ch = KEY_LEFT)) as [->|Hleft].
  { rewrite normal_left. eexists. split; [done|].
    destruct (Z.ltb_spec 0 (cursor_x e)); [|by auto].
    split; [done|]. split; [done|].
    unfold valid_col, current_line, INT_MAX. simpl. intros Hcol Hl _ _ _.
    rewrite to_int_id by (unfold is_int, INT_MIN, INT_MAX; lia). lia. }
  destruct (decide (ch = KEY_RIGHT)) as [->|Hright].
  { rewrite normal_right, (to_size_t_int (cursor_y e))
      by (done || unfold valid_row in *; lia).
    rewrite (vec_get_lookup _ _ _ (proj1 Hrow) Hline). simpl.
    eexists. split; [done|].
    destruct (to_size_t (cursor_x e) <? size (current_line e)) eqn:Hlt;
      [|by auto].
    split; [done|]. split; [done|].
    unfold valid_col, current_line, INT_MAX in *. simpl. intros Hcol Hl _ _ _.
    rewrite to_size_t_id in Hlt by lia. apply Z.ltb_lt in Hlt.
    rewrite to_int_id by (unfold is_int, INT_MIN, INT_MAX; lia). lia. }
  destruct (decide (ch = chr "i")) as [->|Hi].
  { exists (set_mode INSERT e). by auto. }
  destruct (decide (ch = chr "d")) as [->|Hd].
  { destruct (normal_delete_step e Hlen Hrow Hint)
      as (e1 & He1 & _ & Hlen1 & Hrow1 & _).
    assert (cursor_x e1 = 0) as Hx0.
    { destruct (Z.ltb_spec 1 (size (content e))).
      - rewrite normal_delete_many in He1 by done. by injection He1 as <-.
      - rewrite normal_delete_last in He1 by lia. by injection He1 as <-. }
    rewrite He1. exists e1. split; [done|]. split; [done|]. split; [done|].
    intros _ _ _ _ _. by apply valid_col_at_zero. }
  destruct (decide (ch = chr "y")) as [->|Hy].
  { rewrite normal_copy by done. eexists. by auto. }
  destruct (decide (ch = chr "p")) as [->|Hp].
  { rewrite normal_paste by done. eexists. split; [done|].
    unfold valid_row in *. simpl. rewrite size_insert_at.
    split; [lia|]. split; [lia|]. intros _ _ _ _ Hpp. by destruct Hpp. }
  destruct (decide (ch = chr "o")) as [->|Ho].
  { rewrite normal_open by done. eexists. split; [done|].
    unfold valid_row in *. simpl. rewrite size_insert_at.
    split; [lia|]. split; [lia|].
    intros _ _ _ _ _. by apply valid_col_at_zero. }
  rewrite handleNormalMode_other by done. exists e. by auto.
Qed.



(** X5. In Normal mode, every key other than up, down and paste-line keeps
    the cursor column an insertion point of the cursor's line.  Paste-line
    does not: it moves the cursor onto the pasted line without touching the
    column, which can then be beyond the end of that line. *)
Theorem normal_mode_keeps_column_valid :
  (forall (e e' : Editor) (ch : Z),
     valid_row e -> valid_col e ->
     size (content e) <= INT_MAX -> size (current_line e) <= INT_MAX ->
     ch <> KEY_UP -> ch <> KEY_DOWN -> ch <> chr "p" ->
     handleNormalMode ch e = Ok e' -> valid_col e') /\
  (exists e e' : Editor,
     valid_row e /\ valid_col e /\
     handleNormalMode (chr "p") e = Ok e' /\
     size (current_line e') < cursor_x e').
Proof.
  split.
  - intros e e' ch Hrow Hcol Hfit Hl Hup Hdown Hp Hstep.
    destruct (normal_mode_step e ch Hrow Hfit) as (e1 & H1 & _ & _ & Hc).
    rewrite H1 in Hstep. injection Hstep as <-. by apply Hc.
  - exists paste_short. eexists.
    split; [|split; [|split; [reflexivity|]]]; by vm_compute.
Qed.

Lemma normal_mode_keeps_column_valid_witness :
  valid_col (mkEditor "f" [lit "hello"; lit ""; lit "hi"] (lit "") 0 1 0 0 NORMAL).
Proof.
  apply (proj1 normal_mode_keeps_column_valid long_over_short
           (mkEditor "f" [lit "hello"; lit ""; lit "hi"] (lit "") 0 1 0 0 NORMAL)
           (chr "o"));
    try (unfold valid_row, valid_col, INT_MAX, size; simpl; lia);
    try (vm_compute; discriminate).
  reflexivity.
Defined.

(** ** What every Insert-mode key keeps *)

Lemma insert_other (ch : Z) (e : Editor) :
  ch <> 27 -> ch <> KEY_BACKSPACE -> ch <> 127 ->
  ch <> chr (String newline EmptyString) -> ~ 32 <= ch <= 126 ->
  handleInsertMode ch e = Ok e.
Proof.
  intros H27 Hbs H127 Hnl Hpr. unfold handleInsertMode.
  destruct (Z.eqb_spec ch 27); [done|].
  destruct (Z.eqb_spec ch KEY_BACKSPACE); [done|].
  destruct (Z.eqb_spec ch 127); [done|].
  destruct (Z.eqb_spec ch (chr (String newline EmptyString))); [done|].
  simpl. destruct (Z.leb_spec 32 ch); [|done].
  destruct (Z.leb_spec ch 126); [lia|done].
Qed.

Lemma str_erase_one (s : std_string) (pos : Z) :
  0 <= pos <= size s ->
  str_erase s pos 1 = Ok (take (Z.to_nat pos) s ++ drop (Z.to_nat (pos + 1)) s).
Proof.
  unfold str_erase. intros Hpos.
  destruct (Z.ltb_spec (size s) pos); [lia|]. do 2 f_equal.
  destruct (Z.eq_dec pos (size s)) as [->|Hne].
  - rewrite Z.sub_diag, Z.min_r, Z.add_0_r by lia.
    rewrite !drop_ge; [done | unfold size; lia | unfold size; lia].
  - by rewrite Z.min_l by lia.
Qed.

Lemma insert_backspace_valid (bs : Z) (e : Editor) :
  bs = KEY_BACKSPACE \/ bs = 127 ->
  valid_row e -> is_int (cursor_y e) -> is_int (cursor_x e) ->
  0 < cursor_x e <= size (current_line e) + 1 ->
  handleInsertMode bs e =
  Ok (set_cursor_x (cursor_x e - 1)
        (set_content
           (<[Z.to_nat (cursor_y e) :=
                take (Z.to_nat (cursor_x e - 1)) (current_line e) ++
                drop (Z.to_nat (cursor_x e)) (current_line e)]>
              (content e)) e)).
Proof.
  intros Hbs Hrow Hinty Hintx Hx.
  pose proof (current_line_lookup e Hrow) as Hline.
  unfold valid_row in Hrow.
  rewrite insert_backspace by done.
  destruct (Z.ltb_spec 0 (cursor_x e)); [|lia].
  rewrite (to_size_t_int (cursor_y e)) by (done || lia).
  rewrite (vec_get_lookup _ _ _ (proj1 Hrow) Hline). simpl.
  rewrite to_int_id by (unfold is_int, INT_MIN, INT_MAX in *; lia).
  rewrite to_size_t_int by (unfold is_int, INT_MIN, INT_MAX in *; lia).
  rewrite str_erase_one by lia. simpl.
  rewrite vec_set_ok by done. simpl.
  by replace (cursor_x e - 1 + 1) with (cursor_x e) by lia.
Qed.

Lemma insert_enter_valid (e : Editor) :
  valid_row e -> valid_col e ->
  size (content e) <= INT_MAX -> size (current_line e) <= INT_MAX ->
  handleInsertMode (chr (String newline EmptyString)) e =
  Ok (set_cursor_x 0
        (set_cursor_y (cursor_y e + 1)
           (set_content
              (take (Z.to_nat (cursor_y e)) (content e) ++
               take (Z.to_nat (cursor_x e)) (current_line e) ::
               drop (Z.to_nat (cursor_x e)) (current_line e) ::
               drop (S (Z.to_nat (cursor_y e))) (content e)) e))).
Proof.
  intros Hrow Hcol Hfit Hline_fit.
  pose proof (current_line_lookup e Hrow) as Hline.
  pose proof (below_cursor_ok e Hrow) as Hbelow.
  unfold valid_row, valid_col, INT_MAX in *.
  rewrite insert_enter, Hbelow. simpl.
  rewrite !to_size_t_id by lia.
  rewrite (vec_get_lookup _ _ _ (proj1 Hrow) Hline). simpl.
  rewrite substr_tail by (unfold npos; lia). simpl.
  rewrite vec_insert_ok by lia. simpl.
  replace (Z.to_nat (cursor_y e + 1)) with (S (Z.to_nat (cursor_y e))) by lia.
  erewrite vec_get_lookup; [|lia|].
  2:{ rewrite lookup_insert_at by (unfold size in *; lia).
      destruct (decide _) as [_|?]; [exact Hline|lia]. }
  simpl. rewrite substr_front by lia. simpl.
  rewrite vec_set_ok by (rewrite size_insert_at; lia). simpl.
  rewrite (insert_before_inserted _ _ _ _ _ Hline).
  by rewrite to_int_id by (unfold is_int, INT_MIN, INT_MAX; lia).
Qed.

Lemma size_list_insert {A} (v : list A) (n : nat) (x : A) :
  size (<[n := x]> v) = size v.
Proof. unfold size. by rewrite length_insert. Qed.

Lemma current_line_insert (e : Editor) (l : std_string) (x : Z) :
  valid_row e ->
  current_line
    (set_cursor_x x (set_content (<[Z.to_nat (cursor_y e) := l]> (content e)) e))
  = l.
Proof.
  unfold valid_row, current_line. intros Hrow. simpl.
  by rewrite list_lookup_insert_eq by (unfold size in *; lia).
Qed.

(** X6. In Insert mode no key can fail when the cursor is on a row of the
    buffer and at an insertion point of that line: whatever the key code,
    the handler returns a state in which the cursor is again on a row and at
    an insertion point of its line, and the buffer has at least one line. *)
Theorem insert_mode_never_fails (e : Editor) (ch : Z) :
  valid_cursor e ->
  exists e', handleInsertMode ch e = Ok e' /\
    valid_row e' /\ valid_col e' /\ 1 <= size (content e').
Proof.
  intros (Hrow & Hcol & Hfit & Hlfit).
  assert (1 <= size (content e)) as Hlen by (unfold valid_row in *; lia).
  assert (is_int (cursor_y e) /\ is_int (cursor_x e)) as [Hinty Hintx]
    by (unfold valid_row, valid_col, is_int, INT_MIN, INT_MAX in *; lia).
  assert (Z.to_nat (cursor_y e) < length (content e))%nat as Hlt
    by (unfold valid_row, size in *; lia).
  destruct (decide (ch = 27)) as [->|H27].
  { exists (set_mode NORMAL e). by auto. }
  destruct (decide (ch = KEY_BACKSPACE \/ ch = 127)) as [Hbs|Hbs].
  { destruct (Z.ltb_spec 0 (cursor_x e)) as [Hpos|Hzero].
    - rewrite insert_backspace_valid
        by (done || unfold valid_col in *; lia).
      eexists. split; [done|].
      split; [unfold valid_row in *; simpl; by rewrite size_list_insert|].
      split; [|simpl; by rewrite size_list_insert].
      unfold valid_col in *. rewrite current_line_insert by done.
      cbn [cursor_x set_cursor_x]. rewrite size_app. unfold size in *.
      rewrite length_take, length_drop. lia.
    - rewrite insert_backspace by done.
      destruct (Z.ltb_spec 0 (cursor_x e)); [lia|]. exists e. by auto. }
  destruct (decide (ch = chr (String newline EmptyString))) as [->|Hnl].
  { rewrite insert_enter_valid by (done || lia). eexists. split; [done|].
    unfold valid_row in *.
    assert (length (take (Z.to_nat (cursor_y e)) (content e)) =
            Z.to_nat (cursor_y e)) as Htake by (rewrite length_take; lia).
    split; [|split].
    - simpl. unfold size in *. rewrite length_app. simpl.
      rewrite Htake, length_drop. lia.
    - by apply valid_col_at_zero.
    - simpl. unfold size. rewrite length_app. simpl. lia. }
  destruct (decide (32 <= ch <= 126)) as [Hpr|Hpr].
  { rewrite insert_printable_valid by done. eexists. split; [done|].
    split; [unfold valid_row in *; simpl; by rewrite size_list_insert|].
    split; [|simpl; by rewrite size_list_insert].
    unfold valid_col in *. rewrite current_line_insert by done.
    cbn [cursor_x set_cursor_x]. rewrite size_insert_at. lia. }
  rewrite insert_other by tauto. exists e. by auto.
Qed.

Lemma insert_mode_never_fails_witness :
  exists e', handleInsertMode (chr "z") long_over_short = Ok e' /\
    valid_row e' /\ valid_col e' /\ 1 <= size (content e').
Proof.
  apply (insert_mode_never_fails long_over_short (chr "z")).
  unfold valid_cursor, valid_row, valid_col, INT_MAX, size. simpl. lia.
Defined.

(** ** A column beyond the end of the line *)

(** X7. In Insert mode, when the cursor column is beyond the end of the
    cursor's line (as vertical movement or paste-line can leave it), a
    printable character or the newline key makes the string operation throw
    [std::out_of_range], which nothing catches.  A backspace throws too,
    unless the column is exactly one past the end: then it removes no
    character and only moves the column back to the end of the line. *)
Theorem insert_beyond_line_end_throws (e : Editor) (ch bs : Z) :
  valid_row e -> is_int (cursor_y e) -> is_int (cursor_x e) ->
  size (current_line e) < cursor_x e ->
  32 <= ch <= 126 \/ ch = chr (String newline EmptyString) ->
  bs = KEY_BACKSPACE \/ bs = 127 ->
  handleInsertMode ch e = OutOfRange /\
  handleInsertMode bs e =
    (if cursor_x e =? size (current_line e) + 1
     then Ok (set_cursor_x (cursor_x e - 1) e)
     else OutOfRange).
Proof.
  intros Hrow Hinty Hintx Hx Hch Hbs.
  pose proof (current_line_lookup e Hrow) as Hline.
  pose proof (size_nonneg (current_line e)) as Hnn.
  assert (to_size_t (cursor_y e) = cursor_y e) as Hy
    by (apply to_size_t_int; [unfold valid_row in *; lia|done]).
  assert (to_size_t (cursor_x e) = cursor_x e) as Hcx
    by (apply to_size_t_int; [lia|done]).
  assert (vec_get (content e) (cursor_y e) = Ok (current_line e)) as Hget
    by (apply vec_get_lookup; [unfold valid_row in *; lia|done]).
  split.
  - destruct Hch as [Hpr | ->].
    + rewrite insert_printable, Hy, Hget, Hcx by done. simpl.
      unfold str_insert.
      by destruct (Z.ltb_spec (size (current_line e)) (cursor_x e)); [|lia].
    + rewrite insert_enter, below_cursor_ok, Hy, Hget, Hcx by done. simpl.
      unfold substr.
      by destruct (Z.ltb_spec (size (current_line e)) (cursor_x e)); [|lia].
  - destruct (Z.eqb_spec (cursor_x e) (size (current_line e) + 1)) as [Heq|Hne].
    + rewrite insert_backspace_valid by (done || lia).
      do 2 f_equal.
      replace (Z.to_nat (cursor_x e - 1)) with (length (current_line e))
        by (unfold size in *; lia).
      rewrite firstn_all, drop_ge, app_nil_r by (unfold size in *; lia).
      rewrite list_insert_id by done. by destruct e.
    + rewrite insert_backspace by done.
      destruct (Z.ltb_spec 0 (cursor_x e)); [|lia].
      rewrite Hy, Hget. simpl.
      rewrite to_int_id by (unfold is_int, INT_MIN, INT_MAX in *; lia).
      rewrite to_size_t_int by (unfold is_int, INT_MIN, INT_MAX in *; lia).
      unfold str_erase.
      by destruct (Z.ltb_spec (size (current_line e)) (cursor_x e - 1)); [|lia].
Qed.

Lemma insert_beyond_line_end_throws_witness :
  let e := mkEditor "f" [lit "hello"; lit "hi"] (lit "") 5 1 0 0 INSERT in
  handleInsertMode (chr "x") e = OutOfRange /\
  handleInsertMode 127 e = OutOfRange.
Proof.
  apply (insert_beyond_line_end_throws
           (mkEditor "f" [lit "hello"; lit "hi"] (lit "") 5 1 0 0 INSERT)
           (chr "x") 127).
  - unfold valid_row, size. simpl. lia.
  - unfold is_int, INT_MIN, INT_MAX. simpl. lia.
  - unfold is_int, INT_MIN, INT_MAX. simpl. lia.
  - unfold size. simpl. lia.
  - left. vm_compute. split; discriminate.
  - right. reflexivity.
Defined.

(** ** Typing a word *)






(** ** Modes, file name and offsets *)

(** Uses the tests on the key that a handler went through. *)
Ltac key_tests ch :=
  repeat match goal with
         | H : (ch =? _) = true |- _ => apply Z.eqb_eq in H; subst ch
         | H : (ch =? ?k) = false |- context [ch =? ?k] => rewrite H
         end.

Lemma handleNormalMode_frame (ch : Z) (e e' : Editor) :
  handleNormalMode ch e = Ok e' ->
  mode e' = (if ch =? chr "i" then INSERT else mode e) /\
  filename e' = filename e /\
  offset_x e' = offset_x e /\ offset_y e' = offset_y e.
Proof.
  unfold handleNormalMode, below_cursor. intros H.
  repeat match type of H with
         | (if ?b then _ else _) = Ok _ => destruct b eqn:?
         end;
    inv_ok; subst;
    repeat match goal with
           | |- context [if ?b then set_cursor_y _ _ else _] => destruct b
           | |- context [if ?b then set_cursor_x _ _ else _] => destruct b
           end;
    key_tests ch; done.
Qed.

Lemma handleInsertMode_frame (ch : Z) (e e' : Editor) :
  handleInsertMode ch e = Ok e' ->
  mode e' = (if ch =? 27 then NORMAL else mode e) /\
  filename e' = filename e /\
  offset_x e' = offset_x e /\ offset_y e' = offset_y e.
Proof.
  unfold handleInsertMode, below_cursor. intros H.
  repeat match type of H with
         | (if ?b then _ else _) = Ok _ => destruct b eqn:?
         end;
    inv_ok; subst; key_tests ch; done.
Qed.

(** X9. A key handled by the loop changes the mode in two cases only: [i]
    in Normal mode enters Insert mode and escape (27) in Insert mode goes
    back to Normal mode; every other key, open-line included, leaves the mode
    as it is.  No key changes the file name or the scroll offsets. *)
Theorem mode_changes_only_on_i_and_escape (ch : Z) (e e' : Editor) :
  dispatch ch e = Ok e' ->
  mode e' =
    match mode e with
    | NORMAL => if ch =? chr "i" then INSERT else NORMAL
    | INSERT => if ch =? 27 then NORMAL else INSERT
    end /\
  filename e' = filename e /\
  offset_x e' = offset_x e /\ offset_y e' = offset_y e.
Proof.
  unfold dispatch. destruct (mode e) eqn:Hm; intros H.
  - apply handleNormalMode_frame in H. by rewrite Hm in H.
  - apply handleInsertMode_frame in H. by rewrite Hm in H.
Qed.

Lemma mode_changes_only_on_i_and_escape_witness :
  let e' := mkEditor "f" [lit "abc"; lit ""; lit "def"] (lit "") 0 1 0 0 NORMAL in
  mode e' = NORMAL /\
  filename e' = filename scenario_B /\
  offset_x e' = offset_x scenario_B /\ offset_y e' = offset_y scenario_B.
Proof.
  apply (mode_changes_only_on_i_and_escape (chr "o") scenario_B
           (mkEditor "f" [lit "abc"; lit ""; lit "def"] (lit "") 0 1 0 0 NORMAL)).
  reflexivity.
Defined.

(** ** Redrawing *)

Lemma draw_scrolled (t : Terminal) (e : Editor) :
  draw t e = (_ ← render t (scrolled t e); Ok (scrolled t e)).
Proof. reflexivity. Qed.

Lemma scroll_cases (cursor offset extent : Z) :
  scrollable cursor offset extent ->
  scroll cursor offset extent =
  if cursor <? offset then cursor
  else if offset + extent - 1 <=? cursor then cursor - extent + 1
       else offset.
Proof.
  unfold scrollable, INT_MAX, scroll. intros (Hc & Ho & He & Hs).
  destruct (Z.ltb_spec cursor offset); [done|].
  rewrite (to_int_id (offset + extent))
    by (unfold is_int, INT_MIN, INT_MAX; lia).
  rewrite (to_int_id (offset + extent - 1))
    by (unfold is_int, INT_MIN, INT_MAX; lia).
  destruct (Z.leb_spec (offset + extent - 1) cursor); [|done].
  rewrite (to_int_id (cursor - extent))
    by (unfold is_int, INT_MIN, INT_MAX; lia).
  by rewrite to_int_id by (unfold is_int, INT_MIN, INT_MAX; lia).
Qed.

Lemma scroll_scrollable (cursor offset extent : Z) :
  scrollable cursor offset extent ->
  scrollable cursor (scroll cursor offset extent) extent /\
  0 <= cursor - scroll cursor offset extent <= extent - 1.
Proof.
  intros Hs. rewrite scroll_cases by done.
  unfold scrollable in *.
  destruct (Z.ltb_spec cursor offset); [lia|].
  destruct (Z.leb_spec (offset + extent - 1) cursor); lia.
Qed.

Lemma scroll_idempotent (cursor offset extent : Z) :
  scrollable cursor offset extent ->
  scroll cursor (scroll cursor offset extent) extent =
  scroll cursor offset extent.
Proof.
  intros Hs. destruct (scroll_scrollable _ _ _ Hs) as [Hs' _].
  rewrite (scroll_cases cursor (scroll cursor offset extent)) by done.
  rewrite scroll_cases by done. unfold scrollable in *.
  destruct (Z.ltb_spec cursor offset).
  - destruct (Z.ltb_spec cursor cursor); [lia|].
    destruct (Z.leb_spec (cursor + extent - 1) cursor); lia.
  - destruct (Z.leb_spec (offset + extent - 1) cursor).
    + destruct (Z.ltb_spec cursor (cursor - extent + 1)); [lia|].
      destruct (Z.leb_spec (cursor - extent + 1 + extent - 1) cursor); lia.
    + destruct (Z.ltb_spec cursor offset); [lia|].
      destruct (Z.leb_spec (offset + extent - 1) cursor); lia.
Qed.

(** X10. When [draw] returns, the position it hands to [move], the cursor
    minus the offsets, is inside the window: between 0 and [max_y - 1]
    vertically and between 0 and [max_x - 1] horizontally; the offsets stay
    non-negative and the next redraw is again free of overflow.  (This is
    for cursor, offsets and window sizes whose sums fit an [int].) *)
Theorem draw_keeps_cursor_in_window (t : Terminal) (e e' : Editor) :
  draw t e = Ok e' ->
  scrollable (cursor_y e) (offset_y e) (max_y t) ->
  scrollable (cursor_x e) (offset_x e) (max_x t) ->
  0 <= cursor_y e' - offset_y e' <= max_y t - 1 /\
  0 <= cursor_x e' - offset_x e' <= max_x t - 1 /\
  scrollable (cursor_y e') (offset_y e') (max_y t) /\
  scrollable (cursor_x e') (offset_x e') (max_x t).
Proof.
  rewrite draw_scrolled. intros H Hy Hx. inv_ok. subst e'.
  unfold scrolled.
  cbn [cursor_x cursor_y offset_x offset_y set_offset_x set_offset_y].
  destruct (scroll_scrollable _ _ _ Hy) as [Hy1 Hy2].
  destruct (scroll_scrollable _ _ _ Hx) as [Hx1 Hx2].
  done.
Qed.

Lemma draw_keeps_cursor_in_window_witness :
  let e := mkEditor "f" (replicate 30 (lit "line")) (lit "") 0 29 0 0 NORMAL in
  let e' := mkEditor "f" (replicate 30 (lit "line")) (lit "") 0 29 0 6 NORMAL in
  0 <= cursor_y e' - offset_y e' <= max_y vt100 - 1 /\
  0 <= cursor_x e' - offset_x e' <= max_x vt100 - 1 /\
  scrollable (cursor_y e') (offset_y e') (max_y vt100) /\
  scrollable (cursor_x e') (offset_x e') (max_x vt100).
Proof.
  apply (draw_keeps_cursor_in_window vt100
           (mkEditor "f" (replicate 30 (lit "line")) (lit "") 0 29 0 0 NORMAL)
           (mkEditor "f" (replicate 30 (lit "line")) (lit "") 0 29 0 6 NORMAL)).
  - by vm_compute.
  - unfold scrollable, INT_MAX. simpl. lia.
  - unfold scrollable, INT_MAX. simpl. lia.
Defined.

(** X11. Redrawing twice is redrawing once: when [draw] returns, a second
    [draw] on the same terminal returns the same state, so the picture only
    scrolls when the cursor has moved. *)
Theorem draw_is_idempotent (t : Terminal) (e e' : Editor) :
  draw t e = Ok e' ->
  scrollable (cursor_y e) (offset_y e) (max_y t) ->
  scrollable (cursor_x e) (offset_x e) (max_x t) ->
  draw t e' = Ok e'.
Proof.
  rewrite !draw_scrolled. intros H Hy Hx.
  apply bind_Ok in H as (r & Hr & H). injection H as <-.
  assert (scrolled t (scrolled t e) = scrolled t e) as ->.
  { unfold scrolled.
    cbn [cursor_x cursor_y offset_x offset_y set_offset_x set_offset_y].
    by rewrite !scroll_idempotent by done. }
  by rewrite Hr.
Qed.

Lemma draw_is_idempotent_witness :
  let e' := mkEditor "f" (replicate 30 (lit "line")) (lit "") 0 29 0 6 NORMAL in
  draw vt100 e' = Ok e'.
Proof.
  apply (draw_is_idempotent vt100
           (mkEditor "f" (replicate 30 (lit "line")) (lit "") 0 29 0 0 NORMAL)
           (mkEditor "f" (replicate 30 (lit "line")) (lit "") 0 29 0 6 NORMAL)).
  - by vm_compute.
  - unfold scrollable, INT_MAX. simpl. lia.
  - unfold scrollable, INT_MAX. simpl. lia.
Defined.






(** ** Loading, then saving *)

Lemma extract_line_spec (s : std_string) :
  (newline ∉ (extract_line s).1) /\
  (s = (extract_line s).1 ++ newline :: (extract_line s).2 \/
   (s = (extract_line s).1 /\ (extract_line s).2 = [])).
Proof.
  induction s as [|c s [IHn IHs]]; simpl.
  - split; [apply not_elem_of_nil|]. by right.
  - destruct (Ascii.eqb_spec c newline) as [->|Hc]; simpl.
    + split; [apply not_elem_of_nil|]. by left.
    + destruct (extract_line s) as [l r]. simpl in *.
      split; [by apply not_elem_of_cons|].
      destruct IHs as [-> | [-> ->]]; [by left|by right].
Qed.

Lemma written_app (c1 c2 : list std_string) :
  written (c1 ++ c2) = written c1 ++ written c2.
Proof. unfold written. by rewrite map_app, concat_app. Qed.

Lemma newline_terminated_line (l r : std_string) :
  newline_terminated (l ++ newline :: r) = l ++ newline :: newline_terminated r.
Proof.
  unfold newline_terminated. rewrite last_app, last_cons.
  destruct (last r) as [c|] eqn:Hlast.
  - destruct (Ascii.eqb c newline); [done|].
    by rewrite <- app_assoc.
  - apply last_None in Hlast as ->. by rewrite Ascii.eqb_refl.
Qed.

Lemma newline_terminated_last_line (l : std_string) :
  l <> [] -> newline ∉ l -> newline_terminated l = l ++ [newline].
Proof.
  unfold newline_terminated. intros Hne Hnl.
  destruct (last l) as [c|] eqn:Hlast.
  - destruct (Ascii.eqb_spec c newline) as [->|_]; [|done].
    by apply last_Some_elem_of in Hlast.
  - by apply last_None in Hlast.
Qed.

(** What the reading loop appends, by induction on what is left to read. *)
Lemma read_lines_spec (n : nat) : forall (s : std_string) (c : list std_string),
  (length s <= n)%nat ->
  written (read_lines s c) = written c ++ newline_terminated s /\
  (Forall (fun l => newline ∉ l) c ->
   Forall (fun l => newline ∉ l) (read_lines s c)).
Proof.
  induction n as [|n IH]; intros s c Hlen.
  - destruct s; [|simpl in Hlen; lia].
    rewrite read_lines_nil. by rewrite app_nil_r.
  - rewrite read_lines_step.
    destruct s as [|a s]; [by rewrite app_nil_r|].
    cbn [getline].
    destruct (extract_line_spec (a :: s)) as [Hnl Hsplit].
    destruct (extract_line (a :: s)) as [l r] eqn:Hex. cbn [fst snd] in *.
    assert (length r <= n)%nat as Hr.
    { destruct Hsplit as [Hs | [_ ->]]; [|simpl; lia].
      apply (f_equal length) in Hs. rewrite length_app in Hs.
      simpl in *. lia. }
    destruct (IH r (c ++ [l]) Hr) as [Hw Hfree].
    split.
    + rewrite Hw, written_app, <- app_assoc. f_equal.
      unfold written at 1. simpl. rewrite app_nil_r.
      destruct Hsplit as [-> | [<- ->]].
      * rewrite newline_terminated_line. by rewrite <- app_assoc.
      * change (newline_terminated []) with (@nil ascii).
        rewrite app_nil_r. symmetry.
        by apply newline_terminated_last_line.
    + intros Hc. apply Hfree, Forall_app. split; [done|].
      by repeat constructor.
Qed.

(** X13. Every line [loadFile] puts in the buffer is free of newline
    characters and an opened file gives at least one line; so saving what
    was loaded and loading it again gives the same buffer. *)
Theorem load_save_load_is_stable (fs : filesystem) (name : string) (bytes : std_string) :
  files fs !! name = Some bytes -> name ∉ unwritable fs ->
  Forall (fun l => newline ∉ l) (content (loadFile fs (init name))) /\
  1 <= size (content (loadFile fs (init name))) /\
  content (loadFile (saveFile fs (loadFile fs (init name))) (init name)) =
    content (loadFile fs (init name)).
Proof.
  intros Hfile Hw.
  assert (Forall (fun l => newline ∉ l) (content (loadFile fs (init name))))
    as Hfree.
  { unfold loadFile. cbn [filename init content]. rewrite Hfile.
    cbn [content set_content].
    destruct (read_lines_spec (length bytes) bytes [] (le_n _)) as [_ Hf].
    specialize (Hf (Forall_nil_2 _)).
    destruct (read_lines bytes []); [|done].
    simpl. constructor; [apply not_elem_of_nil | constructor]. }
  assert (1 <= size (content (loadFile fs (init name)))) as Hlen
    by (by eapply loadFile_present).
  split; [done|]. split; [done|].
  set (e := loadFile fs (init name)) in *.
  assert (filename e = name) as Hname
    by (subst e; unfold loadFile; cbn [filename init]; by rewrite Hfile).
  unfold saveFile. rewrite Hname.
  destruct (decide (name ∈ unwritable fs)); [done|].
  unfold loadFile at 1. cbn [filename init content files].
  rewrite lookup_insert_eq, read_lines_written by done. simpl.
  destruct (content e); [|done].
  unfold size in Hlen. simpl in Hlen. lia.
Qed.

Lemma load_save_load_is_stable_witness :
  let fs := mkFs {[ "a.txt" := lit "one" ++ [newline] ++ lit "two" ]} ∅ in
  Forall (fun l => newline ∉ l) (content (loadFile fs (init "a.txt"))) /\
  1 <= size (content (loadFile fs (init "a.txt"))) /\
  content (loadFile (saveFile fs (loadFile fs (init "a.txt"))) (init "a.txt")) =
    content (loadFile fs (init "a.txt")).
Proof.
  apply (load_save_load_is_stable
           (mkFs {[ "a.txt" := lit "one" ++ [newline] ++ lit "two" ]} ∅)
           "a.txt" (lit "one" ++ [newline] ++ lit "two")).
  - reflexivity.
  - apply not_elem_of_empty.
Defined.

(** X14. Loading an openable file and saving at once rewrites it with the
    same bytes when it ends with a newline, with one newline appended when
    its last line has none, and as a single newline when it was empty. *)
Theorem load_then_save_terminates_last_line (fs : filesystem) (name : string)
    (bytes : std_string) :
  files fs !! name = Some bytes -> name ∉ unwritable fs ->
  files (saveFile fs (loadFile fs (init name))) !! name =
    Some (match bytes with
          | [] => [newline]
          | _ :: _ => newline_terminated bytes
          end).
Proof.
  intros Hfile Hw.
  assert (filename (loadFile fs (init name)) = name) as Hname
    by (unfold loadFile; cbn [filename init]; by rewrite Hfile).
  unfold saveFile. rewrite Hname.
  destruct (decide (name ∈ unwritable fs)); [done|].
  cbn [files]. rewrite lookup_insert_eq. f_equal.
  unfold loadFile. cbn [filename init content]. rewrite Hfile.
  cbn [content set_content].
  destruct (read_lines_spec (length bytes) bytes [] (le_n _)) as [Hwr _].
  destruct bytes as [|b bytes].
  - by rewrite read_lines_nil.
  - destruct (read_lines (b :: bytes) []) as [|l ls] eqn:Hread; [|done].
    exfalso. cbn in Hwr. unfold newline_terminated in Hwr.
    destruct (last (b :: bytes)) as [c|] eqn:Hlast.
    + destruct (Ascii.eqb c newline); [discriminate|].
      by destruct bytes.
    + by apply last_None in Hlast.
Qed.

Lemma load_then_save_terminates_last_line_witness :
  let fs := mkFs {[ "a.txt" := lit "one" ++ [newline] ++ lit "two" ]} ∅ in
  files (saveFile fs (loadFile fs (init "a.txt"))) !! "a.txt" =
    Some (lit "one" ++ [newline] ++ lit "two" ++ [newline]).
Proof.
  apply (load_then_save_terminates_last_line
           (mkFs {[ "a.txt" := lit "one" ++ [newline] ++ lit "two" ]} ∅)
           "a.txt" (lit "one" ++ [newline] ++ lit "two")).
  - reflexivity.
  - apply not_elem_of_empty.
Defined.

(** ** The loop as a whole *)

Lemma draw_filename (t : Terminal) (e e' : Editor) :
  draw t e = Ok e' -> filename e' = filename e.
Proof. rewrite draw_scrolled. intros H. inv_ok. by subst. Qed.

Lemma dispatch_filename (ch : Z) (e e' : Editor) :
  dispatch ch e = Ok e' -> filename e' = filename e.
Proof.
  unfold dispatch. destruct (mode e); intros H.
  - by apply handleNormalMode_frame in H as (_ & ? & _).
  - by apply handleInsertMode_frame in H as (_ & ? & _).
Qed.




Lemma run_saves_own_file (fs : filesystem) (keys : list input) :
  forall (e : Editor) (s : session),
  run fs keys e = Ok s ->
  filename (editor_of s) = filename e /\
  (forall e' fs', s = Finished e' fs' -> fs' = saveFile fs e').
Proof.
  induction keys as [|k keys IH]; intros e s Hrun.
  - injection Hrun as <-. by split.
  - cbn [run] in Hrun. destruct (key k =? chr "q").
    + injection Hrun as <-. split; [done|]. by intros ? ? [= <- <-].
    + apply bind_Ok in Hrun as (e1 & Hdisp & Hrun).
      apply bind_Ok in Hrun as (e2 & Hdraw & Hrun).
      destruct (IH e2 s Hrun) as [Hname Hsave]. split; [|done].
      rewrite Hname, (draw_filename _ _ _ Hdraw).
      by apply dispatch_filename in Hdisp.
Qed.

Lemma saveFile_frame (fs : filesystem) (e : Editor) (p : string) :
  p <> filename e ->
  files (saveFile fs e) !! p = files fs !! p /\
  unwritable (saveFile fs e) = unwritable fs.
Proof.
  intros Hp. unfold saveFile. destruct (decide _); [done|].
  cbn [files unwritable]. by rewrite lookup_insert_ne.
Qed.

(** X16. Whatever the arguments and the keys, when the program returns from
    [main] the only file it can have changed is the one named by the first
    argument; with no argument it returns 1 and changes nothing, otherwise
    it returns 0, and it returns only if some key was [q]. *)
Theorem main_writes_only_its_file (fs fs' : filesystem) (t : Terminal)
    (argv0 : string) (args : list string) (keys : list input)
    (status : Z) (out : std_string) :
  main_args fs t argv0 args keys = Ok (Exit status fs' out) ->
  (forall p, head args <> Some p -> files fs' !! p = files fs !! p) /\
  unwritable fs' = unwritable fs /\
  (args = [] -> status = 1 /\ fs' = fs) /\
  (args <> [] -> status = 0 /\ Exists (fun k => key k = chr "q") keys).
Proof.
  unfold main_args. destruct args as [|name args].
  - intros [= <- <- <-]. by repeat split.
  - intros H. apply bind_Ok in H as (s & Hmain & H).
    unfold main in Hmain. apply bind_Ok in Hmain as (e0 & Hnew & Hrun).
    destruct s as [e|e fs1]; [discriminate|]. injection H as <- <- <-.
    assert (filename e0 = name) as Hname0.
    { unfold Editor_new in Hnew. apply draw_filename in Hnew.
      rewrite Hnew. unfold loadFile. cbn [filename init].
      by destruct (files fs !! name). }
    destruct (run_saves_own_file fs keys e0 _ Hrun) as [Hname Hsave].
    rewrite (Hsave e fs1 eq_refl). cbn [editor_of] in Hname.
    rewrite Hname0 in Hname.
    split; [|split; [|split]].
    + intros p Hp. apply saveFile_frame. rewrite Hname.
      intros ->. by apply Hp.
    + unfold saveFile. by destruct (decide _).
    + done.
    + intros _. split; [done|].
      destruct (decide (Exists (fun k => key k = chr "q") keys)) as [|Hno];
        [done|].
      apply not_Exists_Forall in Hno; [|intros k; apply _].
      destruct (run_without_quit fs keys e0 _ Hno Hrun) as [e' He'].
      discriminate.
Qed.

Lemma main_writes_only_its_file_witness :
  let fs := mkFs {[ "a.txt" := lit "one" ]} ∅ in
  let fs' := mkFs {[ "a.txt" := lit "one" ++ [newline] ]} ∅ in
  (forall p, head ["a.txt"%string] <> Some p -> files fs' !! p = files fs !! p) /\
  unwritable fs' = unwritable fs /\
  (["a.txt"%string] = [] -> 0 = 1 /\ fs' = fs) /\
  (["a.txt"%string] <> [] ->
   0 = 0 /\ Exists (fun k => key k = chr "q") [mkInput (chr "q") vt100]).
Proof.
  apply (main_writes_only_its_file
           (mkFs {[ "a.txt" := lit "one" ]} ∅)
           (mkFs {[ "a.txt" := lit "one" ++ [newline] ]} ∅)
           vt100 "editor" ["a.txt"%string] [mkInput (chr "q") vt100] 0 []).
  by vm_compute.
Defined.

(** ** The buffer with no line *)

(** X17. On a buffer with no line and the cursor at row 0 (what a file that
    cannot be opened leaves), the Normal-mode keys right, [d], [y], [p], [o]
    and, in Insert mode, every printable character and the newline key
    index or step past the end of an empty vector: undefined behaviour.  The
    down key is accepted and moves the cursor to row 1, because
    [content.size() - 1] wraps around to the largest [size_t]. *)
Theorem empty_buffer_commands_are_undefined (e : Editor) (ch : Z) :
  content e = [] -> cursor_y e = 0 ->
  (ch = KEY_RIGHT \/ ch = chr "d" \/ ch = chr "y" \/ ch = chr "p" \/
   ch = chr "o" -> handleNormalMode ch e = UB) /\
  (32 <= ch <= 126 \/ ch = chr (String newline EmptyString) ->
   handleInsertMode ch e = UB) /\
  handleNormalMode KEY_DOWN e = Ok (set_cursor_y 1 e).
Proof.
  intros Hc Hy. split; [|split].
  - intros [-> | [-> | [-> | [-> | ->]]]];
      unfold handleNormalMode, below_cursor; rewrite Hc, Hy; reflexivity.
  - intros [Hpr | ->].
    + rewrite insert_printable by done. by rewrite Hc, Hy.
    + rewrite insert_enter. unfold below_cursor. by rewrite Hc, Hy.
  - rewrite normal_down. by rewrite Hc, Hy.
Qed.

Lemma empty_buffer_commands_are_undefined_witness :
  handleNormalMode (chr "d") (init "new.txt") = UB /\
  handleInsertMode (chr "d") (init "new.txt") = UB /\
  handleNormalMode KEY_DOWN (init "new.txt") = Ok (set_cursor_y 1 (init "new.txt")).
Proof.
  destruct (empty_buffer_commands_are_undefined (init "new.txt") (chr "d")
              eq_refl eq_refl) as (Hnormal & Hinsert & Hdown).
  split; [|split].
  - apply Hnormal. right. left. reflexivity.
  - apply Hinsert. left. vm_compute. split; discriminate.
  - exact Hdown.
Defined.

Lemma draw_empty_buffer (t : Terminal) (e : Editor) :
  content e = [] -> draw t e = Ok (scrolled t e).
Proof.
  intros Hc. rewrite draw_scrolled. unfold render, scrolled.
  cbn [content set_offset_x set_offset_y]. rewrite Hc.
  by rewrite drop_nil, take_nil.
Qed.

(** X18. Started on a name that cannot be opened for reading but can be
    written, the program that is quit at once leaves a file of that name
    with no byte in it: [saveFile] writes the buffer with no line. *)
Theorem quitting_on_missing_file_creates_empty_file (fs : filesystem)
    (t : Terminal) (name : string) (k : input) (rest : list input) :
  files fs !! name = None -> name ∉ unwritable fs -> key k = chr "q" ->
  exists e fs',
    main fs t name (k :: rest) = Ok (Finished e fs') /\
    content e = [] /\
    files fs' !! name = Some [].
Proof.
  intros Hnone Hw Hq.
  unfold main, Editor_new.
  rewrite loadFile_missing by done.
  rewrite draw_empty_buffer by done. simpl.
  rewrite Hq. simpl. eexists _, _. split; [done|]. split; [done|].
  unfold saveFile. cbn [filename scrolled init set_offset_x set_offset_y].
  destruct (decide (name ∈ unwritable fs)); [done|].
  cbn [files content]. apply lookup_insert_eq.
Qed.

Lemma quitting_on_missing_file_creates_empty_file_witness :
  exists e fs',
    main (mkFs ∅ ∅) vt100 "new.txt" [mkInput (chr "q") vt100] = Ok (Finished e fs') /\
    content e = [] /\
    files fs' !! "new.txt" = Some [].
Proof.
  apply (quitting_on_missing_file_creates_empty_file (mkFs ∅ ∅) vt100
           "new.txt" (mkInput (chr "q") vt100) []).
  - reflexivity.
  - apply not_elem_of_empty.
  - reflexivity.
Defined.

(** ** Typing and taking back *)





(** ** Keys that Insert mode ignores *)

(** X20. In Insert mode a key that is not escape, not one of the two
    backspace codes, not newline and not a printable character (32 to 126)
    leaves the whole editor state as it is.  The four arrow keys are such
    keys: in Insert mode the cursor cannot be moved with them. *)
Theorem insert_mode_ignores_other_keys (e : Editor) (ch : Z) :
  mode e = INSERT ->
  ch <> 27 -> ch <> KEY_BACKSPACE -> ch <> 127 ->
  ch <> chr (String newline EmptyString) -> ~ 32 <= ch <= 126 ->
  dispatch ch e = Ok e /\
  dispatch KEY_UP e = Ok e /\ dispatch KEY_DOWN e = Ok e /\
  dispatch KEY_LEFT e = Ok e /\ dispatch KEY_RIGHT e = Ok e.
Proof.
  intros Hmode H27 Hbs H127 Hnl Hpr. unfold dispatch. rewrite Hmode.
  split; [by apply insert_other|].
  repeat split; apply insert_other; (discriminate || (vm_compute; intros [? ?]; done)).
Qed.

Lemma insert_mode_ignores_other_keys_witness :
  let e := mkEditor "f" [lit "hello"; lit "hi"] (lit "") 2 0 0 0 INSERT in
  dispatch 9 e = Ok e /\
  dispatch KEY_UP e = Ok e /\ dispatch KEY_DOWN e = Ok e /\
  dispatch KEY_LEFT e = Ok e /\ dispatch KEY_RIGHT e = Ok e.
Proof.
  apply (insert_mode_ignores_other_keys
           (mkEditor "f" [lit "hello"; lit "hi"] (lit "") 2 0 0 0 INSERT) 9);
    [reflexivity | discriminate | discriminate | discriminate
    | vm_compute; discriminate | lia].
Defined.

(** ** What changes the text and the register *)

Lemma handleNormalMode_changes (ch : Z) (e e' : Editor) :
  handleNormalMode ch e = Ok e' ->
  (copy_buffer e' = copy_buffer e \/ ch = chr "y") /\
  (content e' = content e \/ ch = chr "d" \/ ch = chr "p" \/ ch = chr "o").
Proof.
  unfold handleNormalMode, below_cursor. intros H.
  repeat match type of H with
         | (if ?b then _ else _) = Ok _ => destruct b eqn:?
         end;
    inv_ok; subst;
    repeat match goal with
           | |- context [if ?b then set_cursor_y _ _ else _] => destruct b
           | |- context [if ?b then set_cursor_x _ _ else _] => destruct b
           end;
    key_tests ch; simpl; auto.
Qed.

Lemma handleInsertMode_changes (ch : Z) (e e' : Editor) :
  handleInsertMode ch e = Ok e' ->
  copy_buffer e' = copy_buffer e /\
  (content e' = content e \/ ch = KEY_BACKSPACE \/ ch = 127 \/
   ch = chr (String newline EmptyString) \/ 32 <= ch <= 126).
Proof.
  unfold handleInsertMode, below_cursor. intros H.
  repeat match type of H with
         | (if ?b then _ else _) = Ok _ => destruct b eqn:?
         end;
    inv_ok; subst; simpl; split; auto.
  - match goal with
    | Hb : (ch =? KEY_BACKSPACE) || (ch =? 127) = true |- _ =>
        apply orb_true_iff in Hb as [Hb%Z.eqb_eq | Hb%Z.eqb_eq]; auto
    end.
  - match goal with
    | Hb : (ch =? chr _) = true |- _ => apply Z.eqb_eq in Hb; auto
    end.
  - match goal with
    | Hb : (32 <=? ch) && (ch <=? 126) = true |- _ =>
        apply andb_true_iff in Hb as [?%Z.leb_le ?%Z.leb_le]; auto 10
    end.
Qed.

(** X21. A key handled by the loop changes the register only if it is [y]
    in Normal mode, and changes the text of the buffer only if it is [d],
    [p] or [o] in Normal mode or a backspace, a newline or a printable
    character in Insert mode.  Moving the cursor and changing mode never
    touch the text. *)
Theorem what_changes_text_and_register (ch : Z) (e e' : Editor) :
  dispatch ch e = Ok e' ->
  (copy_buffer e' <> copy_buffer e -> mode e = NORMAL /\ ch = chr "y") /\
  (content e' <> content e ->
   (mode e = NORMAL /\ (ch = chr "d" \/ ch = chr "p" \/ ch = chr "o")) \/
   (mode e = INSERT /\
    (ch = KEY_BACKSPACE \/ ch = 127 \/
     ch = chr (String newline EmptyString) \/ 32 <= ch <= 126))).
Proof.
  unfold dispatch. destruct (mode e) eqn:Hm; intros H.
  - apply handleNormalMode_changes in H as [[Hb|Hb] [Hc|Hc]];
      split; intros Hne; try done; auto.
  - apply handleInsertMode_changes in H as [Hb [Hc|Hc]];
      split; intros Hne; try done; auto.
Qed.

Lemma what_changes_text_and_register_witness :
  let e' := mkEditor "f" [lit "def"] (lit "") 0 0 0 0 NORMAL in
  (copy_buffer e' <> copy_buffer scenario_B ->
   mode scenario_B = NORMAL /\ chr "d" = chr "y") /\
  (content e' <> content scenario_B ->
   (mode scenario_B = NORMAL /\
    (chr "d" = chr "d" \/ chr "d" = chr "p" \/ chr "d" = chr "o")) \/
   (mode scenario_B = INSERT /\
    (chr "d" = KEY_BACKSPACE \/ chr "d" = 127 \/
     chr "d" = chr (String newline EmptyString) \/ 32 <= chr "d" <= 126))).
Proof.
  apply (what_changes_text_and_register (chr "d") scenario_B
           (mkEditor "f" [lit "def"] (lit "") 0 0 0 0 NORMAL)).
  reflexivity.
Defined.

(** ** A file that cannot be written *)


